(** * LibroyPuntoServer: the token gate and the path check of [server.js]

    The development embeds the middleware mounted on
    [/epubs_content/:bookId/*] (server.js, lines 43-142) as pure functions
    over the request fields it reads, the value of [Date.now()] and the
    value of [__dirname].  JavaScript strings are sequences of UTF-16 code
    units; the string primitives the handler calls ([split], [parseInt],
    [startsWith]) and Node's POSIX [path.join] are embedded next to it. *)

From Stdlib Require Import List NArith ZArith Bool String Ascii Lia.
Import ListNotations.

Set Implicit Arguments.

(** ** JavaScript strings and the primitives used by the handler *)

Module JS.

(** A UTF-16 code unit. *)
Definition char := N.

(** A JavaScript string: its code units, in order. *)
Definition jsstring := list char.

(** Code units of an ASCII literal of the source. *)
Definition lit (s : string) : jsstring :=
  map N_of_ascii (list_ascii_of_string s).

(** [a === b] on strings. *)
Fixpoint eqb (a b : jsstring) : bool :=
  match a, b with
  | [], [] => true
  | x :: a', y :: b' => (x =? y)%N && eqb a' b'
  | _, _ => false
  end.

(** [s.split(sep)] for a separator of one code unit: the pieces between
    the occurrences of [sep]; there is one piece more than there are
    separators, so the empty string splits into one empty piece. *)
Fixpoint split (sep : char) (s : jsstring) : list jsstring :=
  match s with
  | [] => [[]]
  | c :: s' =>
      if (c =? sep)%N then [] :: split sep s'
      else match split sep s' with
           | piece :: pieces => (c :: piece) :: pieces
           | [] => [[c]]
           end
  end.

(** [s.startsWith(prefix)]: comparison of code units, position by
    position. *)
Fixpoint startsWith (s prefix : jsstring) {struct prefix} : bool :=
  match prefix, s with
  | [], _ => true
  | p :: prefix', c :: s' => (c =? p)%N && startsWith s' prefix'
  | _ :: _, [] => false
  end.

(** White space skipped by [parseInt]: the WhiteSpace and LineTerminator
    code points of ECMAScript (TAB, LF, VT, FF, CR, SP, NBSP, the Unicode
    space separators, LS, PS and the byte order mark). *)
Definition isWhiteSpace (c : char) : bool :=
  ((9 <=? c) && (c <=? 13) || (c =? 32) || (c =? 160) || (c =? 5760)
   || (8192 <=? c) && (c <=? 8202) || (c =? 8232) || (c =? 8233)
   || (c =? 8239) || (c =? 8287) || (c =? 12288) || (c =? 65279))%N.

Fixpoint trimStart (s : jsstring) : jsstring :=
  match s with
  | c :: s' => if isWhiteSpace c then trimStart s' else s
  | [] => []
  end.

Definition isDigit (c : char) : bool := ((48 <=? c) && (c <=? 57))%N.

Definition digitValue (c : char) : Z := Z.of_N (c - 48).

(** Value of the longest prefix of decimal digits, read left to right;
    [acc] is [None] until a digit has been read. *)
Fixpoint digitPrefix (acc : option Z) (s : jsstring) : option Z :=
  match s with
  | c :: s' =>
      if isDigit c
      then digitPrefix
             (Some (10 * match acc with Some a => a | None => 0 end
                    + digitValue c)%Z) s'
      else acc
  | [] => acc
  end.

(** [parseInt(s, 10)].  [None] is NaN.  Leading white space is skipped,
    one sign is read, then the longest run of decimal digits; what
    follows the digits is ignored.  No digit at all gives NaN.

    The result is kept as the exact integer.  The handler only compares
    it with [Date.now()], an integer of magnitude below 2^53: every
    integer up to 2^53 is a double, rounding is monotone, so the
    comparison of [Date.now()] with the double that [parseInt] returns
    has the outcome of the comparison with the exact integer. *)
Definition parseInt (s : jsstring) : option Z :=
  let s1 := trimStart s in
  let '(sign, s2) :=
    match s1 with
    | c :: s' =>
        if (c =? 45)%N then ((-1)%Z, s')
        else if (c =? 43)%N then (1%Z, s')
        else (1%Z, s1)
    | [] => (1%Z, s1)
    end in
  match digitPrefix None s2 with
  | Some m => Some (sign * m)%Z
  | None => None
  end.

(** [a || b] where each side is [undefined] or a string: the left side
    when it is truthy (a non-empty string), the right side otherwise. *)
Definition or_else (a b : option jsstring) : option jsstring :=
  match a with
  | Some (_ :: _) => a
  | _ => b
  end.

(** [!s] for a string [s]: only the empty string is falsy. *)
Definition falsy (s : jsstring) : bool :=
  match s with
  | [] => true
  | _ :: _ => false
  end.

End JS.

Import JS.

(** ** Node's [path.join] on a POSIX host *)

(** [path] is Node's own module; the server runs on a POSIX host, where
    [path.join] is [path.posix.join].  It works on text only and never
    looks at the file system.  [normalizeString] scans the path once and
    handles it segment by segment, a segment being what stands between two
    separators; the embedding keeps the list of segments that the scan
    has appended to its result. *)

Module Path.

Definition SLASH : char := 47%N.
Definition DOT : char := 46%N.

(** [pieces.join(sep)]. *)
Fixpoint joinWith (sep : char) (pieces : list jsstring) : jsstring :=
  match pieces with
  | [] => []
  | [p] => p
  | p :: rest => p ++ sep :: joinWith sep rest
  end.

(** One segment of [normalizeString].  [res] holds the segments kept so
    far, the last one first.  An empty segment and ["."] change nothing;
    [".."] removes the last kept segment unless there is none or it is
    [".."] itself, in which case [".."] is kept when [allowAboveRoot] and
    dropped otherwise; any other segment is kept. *)
Definition normalizeStep (allowAboveRoot : bool)
           (res : list jsstring) (segment : jsstring) : list jsstring :=
  if eqb segment [] || eqb segment [DOT] then res
  else if eqb segment [DOT; DOT] then
    match res with
    | top :: below =>
        if eqb top [DOT; DOT]
        then (if allowAboveRoot then segment :: res else res)
        else below
    | [] => if allowAboveRoot then [segment] else []
    end
  else segment :: res.

(** [normalizeString(path, allowAboveRoot, '/', isPosixPathSeparator)]:
    the kept segments joined by ['/'], without leading or trailing
    separator. *)
Definition normalizeSegments (allowAboveRoot : bool) (p : jsstring)
  : list jsstring :=
  rev (fold_left (normalizeStep allowAboveRoot) (split SLASH p) []).

Definition normalizeString (p : jsstring) (allowAboveRoot : bool)
  : jsstring :=
  joinWith SLASH (normalizeSegments allowAboveRoot p).

Definition isAbsolute (p : jsstring) : bool :=
  match p with
  | c :: _ => (c =? SLASH)%N
  | [] => false
  end.

Definition trailingSeparator (p : jsstring) : bool :=
  match rev p with
  | c :: _ => (c =? SLASH)%N
  | [] => false
  end.

(** [path.posix.normalize(p)]. *)
Definition normalize (p : jsstring) : jsstring :=
  match p with
  | [] => [DOT]
  | _ :: _ =>
      let abs := isAbsolute p in
      let trailing := trailingSeparator p in
      match normalizeString p (negb abs) with
      | [] =>
          if abs then [SLASH]
          else if trailing then [DOT; SLASH] else [DOT]
      | (_ :: _) as q =>
          let q' := if trailing then q ++ [SLASH] else q in
          if abs then SLASH :: q' else q'
      end
  end.

(** [path.posix.join(...args)]: the non-empty arguments joined by ['/'],
    then normalized; ["."] when nothing is left. *)
Definition join (args : list jsstring) : jsstring :=
  match filter (fun a => negb (eqb a [])) args with
  | [] => [DOT]
  | kept => normalize (joinWith SLASH kept)
  end.

End Path.

(** ** The middleware of [/epubs_content/:bookId/*] *)

(** The fields of [req] that the handler reads, as Express hands them
    over.  Each of the two places of the token holds a string or is
    [undefined]; [req.path] is the part of the URL that the handler treats
    as the path inside the book. *)
Record Request := mkRequest {
  params_bookId : jsstring;                 (* req.params.bookId *)
  query_userToken : option jsstring;        (* req.query.userToken *)
  headers_authorization : option jsstring;  (* req.headers.authorization *)
  req_path : jsstring                       (* req.path *)
}.

(** How the handler ends: with [res.status(code).send(body)], or by
    handing [fullFilePath] to [fs.readFile]. *)
Inductive Response :=
| Send (status : Z) (body : string)
| ReadFile (fullFilePath : jsstring).

(** Control flow of a part of the handler: an early [return], or falling
    through to the code that follows. *)
Inductive Flow :=
| Return (r : Response)
| Continue.

Definition UNDERSCORE : char := 95%N.

Definition tokenMissing : Response :=
  Send 403 "Acceso denegado: Token de usuario no proporcionado.".
Definition tokenInvalidOrWrongBook : Response :=
  Send 403 "Acceso denegado: Token inválido o no corresponde al libro.".
Definition tokenExpiredOrInvalid : Response :=
  Send 403 "Acceso denegado: Token expirado o inválido.".
Definition tokenNotForThisBook : Response :=
  Send 403 "Acceso denegado: Token no válido para este libro.".
Definition invalidFilePath : Response :=
  Send 400 "Ruta de archivo no válida.".

(** [tokenParts[i] !== bookId]; an index past the end reads [undefined],
    which differs from every string. *)
Definition differs (part : option jsstring) (bookId : jsstring) : bool :=
  match part with
  | Some s => negb (eqb s bookId)
  | None => true
  end.

(** [parseInt(tokenParts[i], 10)]; [parseInt(undefined, 10)] is NaN. *)
Definition parseIntPart (part : option jsstring) : option Z :=
  match part with
  | Some s => parseInt s
  | None => None
  end.

(** Line 46: the token of the query string, else the one of the
    [Authorization] header. *)
Definition userToken (req : Request) : option jsstring :=
  or_else (query_userToken req) (headers_authorization req).

(** [userToken.split('_')[i]]. *)
Definition segment (token : jsstring) (i : nat) : option jsstring :=
  nth_error (split UNDERSCORE token) i.

(** Lines 44-77: the validation of [userToken]. *)
Definition tokenValidation (req : Request) (now : Z) : Flow :=
  let bookId := params_bookId req in
  match userToken req with
  | None => Return tokenMissing                       (* !undefined *)
  | Some token =>
      if falsy token then Return tokenMissing
      else
        let tokenParts := split UNDERSCORE token in
        if (List.length tokenParts <? 4)%nat
           || differs (nth_error tokenParts 0) bookId
        then Return tokenInvalidOrWrongBook
        else
          let tokenBookId := nth_error tokenParts 0 in
          let expirationTimestamp := parseIntPart (nth_error tokenParts 2) in
          let currentTime := now in
          if match expirationTimestamp with
             | None => true                           (* isNaN *)
             | Some expiration => (currentTime >? expiration)%Z
             end
          then Return tokenExpiredOrInvalid
          else if differs tokenBookId bookId
          then Return tokenNotForThisBook
          else Continue
  end.

Definition EPUBS : jsstring := lit "epubs_descomprimidos".

(** Line 82. *)
Definition fullFilePath (dirname : jsstring) (req : Request) : jsstring :=
  Path.join [dirname; EPUBS; params_bookId req; req_path req].

(** Line 86. *)
Definition safeBase (dirname : jsstring) (req : Request) : jsstring :=
  Path.join [dirname; EPUBS; params_bookId req].

(** Lines 79-93: the path check, up to the call of [fs.readFile]. *)
Definition pathResolution (dirname : jsstring) (req : Request) : Response :=
  if negb (startsWith (fullFilePath dirname req) (safeBase dirname req))
  then invalidFilePath
  else ReadFile (fullFilePath dirname req).

(** The handler: [dirname] is [__dirname], [now] what [Date.now()] returns. *)
Definition handler (dirname : jsstring) (req : Request) (now : Z) : Response :=
  match tokenValidation req now with
  | Return r => r
  | Continue => pathResolution dirname req
  end.

(** ** The file and its content type (lines 93-141) *)

(** Node's [path.extname] on a POSIX host: the extension of the last
    component of the path, closing separators aside.  It runs from the
    last ['.'] of that component to its end, and is empty when the
    component has no ['.'], when its only ['.'] is its first character,
    and when the component is [".."]. *)

Module PathExt.

(** The last component of a path; empty when the path has none. *)
Definition lastComponent (p : jsstring) : jsstring :=
  last (filter (fun c => negb (eqb c [])) (split Path.SLASH p)) [].

(** Scan of a name from its end: [r] is what is left of the name, last
    character first, [after] what was read.  The result is the part before
    the last ['.'], reversed, and the part after it; [None] without
    ['.']. *)
Fixpoint untilDot (r after : jsstring) : option (jsstring * jsstring) :=
  match r with
  | [] => None
  | c :: r' =>
      if (c =? Path.DOT)%N then Some (r', after)
      else untilDot r' (c :: after)
  end.

Definition extOfName (name : jsstring) : jsstring :=
  match untilDot (rev name) [] with
  | None => []
  | Some (before, after) =>
      if eqb before [] then []
      else if eqb before [Path.DOT] && eqb after [] then []
      else Path.DOT :: after
  end.

Definition extname (p : jsstring) : jsstring :=
  extOfName (lastComponent p).

End PathExt.

(** [c] is an ASCII code unit. *)
Definition isASCII (c : char) : bool := (c <? 128)%N.

(** Lower case of an ASCII code unit: ['A'..'Z'] become ['a'..'z']. *)
Definition lowerASCII (c : char) : char :=
  if ((65 <=? c) && (c <=? 90))%N then (c + 32)%N else c.

(** [s.toLowerCase()] on ASCII text.  Outside ASCII the conversion follows
    the Unicode tables, which are not embedded: there the result is
    [None]. *)
Definition toLowerCase (s : jsstring) : option jsstring :=
  if forallb isASCII s then Some (map lowerASCII s) else None.

(** The [switch] of lines 104-138 on the lower-cased extension. *)
Definition contentTypeFor (ext : jsstring) : string :=
  if eqb ext (lit ".html") || eqb ext (lit ".xhtml")
  then "application/xhtml+xml"
  else if eqb ext (lit ".css") then "text/css"
  else if eqb ext (lit ".jpg") || eqb ext (lit ".jpeg") then "image/jpeg"
  else if eqb ext (lit ".png") then "image/png"
  else if eqb ext (lit ".gif") then "image/gif"
  else if eqb ext (lit ".svg") then "image/svg+xml"
  else if eqb ext (lit ".opf") then "application/oebps-package+xml"
  else if eqb ext (lit ".ncx") then "application/x-dtbncx+xml"
  else if eqb ext (lit ".otf") || eqb ext (lit ".ttf")
          || eqb ext (lit ".woff") || eqb ext (lit ".woff2")
  then "font/opentype"
  else "application/octet-stream".

(** Lines 101-138: the content type of a file, from its path; [None]
    when the extension is not ASCII text. *)
Definition contentTypeOf (fullFilePath : jsstring) : option string :=
  match toLowerCase (PathExt.extname fullFilePath) with
  | Some ext => Some (contentTypeFor ext)
  | None => None
  end.

(** The bytes of a file. *)
Definition Data := list N.

(** What the client receives: a status with a text, or the bytes of a
    file under the content type set at line 139. *)
Inductive Reply :=
| Status (code : Z) (body : string)
| Content (contentType : string) (data : Data).

(** The content type set at line 139.  The labels of the [switch] are
    ASCII texts, and none of them holds a ['k'].  Lower-casing an
    extension that holds a code unit outside ASCII gives a text that again
    holds one, or a ['k'] (the Kelvin sign is the one character outside
    ASCII whose lower case is ASCII): it equals no label, and the type
    stays the default of line 102. *)
Definition contentType (fullFilePath : jsstring) : string :=
  match contentTypeOf fullFilePath with
  | Some type => type
  | None => "application/octet-stream"
  end.

(** Lines 93-141, the callback of [fs.readFile]: [file] is [None] when
    the read fails. *)
Definition readFileCallback (fullFilePath : jsstring) (file : option Data)
  : Reply :=
  match file with
  | None => Status 404 "Archivo del libro no encontrado."
  | Some data => Content (contentType fullFilePath) data
  end.

(** The whole middleware over a file system [readFile], which gives the
    bytes of the file at a path or fails. *)
Definition respond (readFile : jsstring -> option Data)
           (dirname : jsstring) (req : Request) (now : Z) : Reply :=
  match handler dirname req now with
  | Send code body => Status code body
  | ReadFile fullFilePath => readFileCallback fullFilePath (readFile fullFilePath)
  end.

(** ** The request on its way to the handler *)

(** What a client sends for this route: a URL whose path is
    [/epubs_content/<bookId>/<rest>], with the token in the query string
    or in the [Authorization] header. *)
Record Arrival := mkArrival {
  url_bookId : jsstring;
  url_rest : jsstring;
  url_userToken : option jsstring;
  sent_authorization : option jsstring
}.

(** What the handler receives for it (line 43).  The handler is mounted
    with [app.use]: before it calls the handler, Express takes away from
    [req.url] the part that the mount path matched.  The mount path ends
    with the wildcard, which matches up to the end of the path of the URL,
    so nothing of that path is left and [req.path] is ["/"] for every
    arrival.  The text after the book identity stays in [req.params],
    which the handler reads for [bookId] only. *)
Definition received (a : Arrival) : Request :=
  mkRequest (url_bookId a) (url_userToken a) (sent_authorization a)
            [Path.SLASH].

(** [req.query.userToken] as Express parses it: absent, a text, or, for
    a repeated or bracketed parameter, an array or an object. *)
Inductive QueryValue :=
| Absent
| Text (s : jsstring)
| Structured.

(** How a run of the handler ends: with a response, or with the
    [TypeError] of line 57. *)
Inductive Outcome :=
| Responds (r : Response)
| Throws.

(** The handler over every value of [req.query.userToken].  An array or
    an object is truthy, so it is the [userToken] of line 46 and passes
    line 53; it has no [split], and line 57 throws. *)
Definition handlerOn (dirname bookId : jsstring) (query : QueryValue)
           (authorization : option jsstring) (path : jsstring) (now : Z)
  : Outcome :=
  match query with
  | Structured => Throws
  | Text s =>
      Responds (handler dirname (mkRequest bookId (Some s) authorization path) now)
  | Absent =>
      Responds (handler dirname (mkRequest bookId None authorization path) now)
  end.

(** ** Notions of the specification *)

(** Value of a string of decimal digits. *)
Definition decimalValue (digits : jsstring) : Z :=
  fold_left (fun a c => (10 * a + digitValue c)%Z) digits 0%Z.

(** The specification's "valid non-negative decimal integer": one or more
    decimal digits and nothing else. *)
Definition validDecimalInteger (s : jsstring) : bool :=
  negb (eqb s []) && forallb isDigit s.

(** The components of a path: what stands between its separators. *)
Definition components (p : jsstring) : list jsstring :=
  filter (fun c => negb (eqb c [])) (split Path.SLASH p).

(** [l] starts with all the components of [root], one by one. *)
Fixpoint componentPrefix (root l : list jsstring) {struct root} : bool :=
  match root, l with
  | [], _ => true
  | r :: root', c :: l' => eqb c r && componentPrefix root' l'
  | _ :: _, [] => false
  end.

(** The specification's containment: [p] is [root] or lies below it,
    component by component. *)
Definition within (root p : jsstring) : bool :=
  componentPrefix (components root) (components p).

Definition startsWithDigit (s : jsstring) : bool :=
  match s with
  | c :: _ => isDigit c
  | [] => false
  end.

Definition dropSign (s : jsstring) : jsstring :=
  match s with
  | c :: s' => if (c =? 45)%N || (c =? 43)%N then s' else s
  | [] => []
  end.

(** Strings that do not begin with an integer: after the leading white
    space and one optional sign, the string ends or goes on with something
    other than a decimal digit. *)
Definition noLeadingInteger (s : jsstring) : bool :=
  negb (startsWithDigit (dropSign (trimStart s))).

(** A component of a canonical path: a name, neither empty nor ["."] nor
    [".."], without separator. *)
Definition properSegment (c : jsstring) : Prop :=
  c <> [] /\ c <> [Path.DOT] /\ c <> [Path.DOT; Path.DOT]
  /\ ~ In Path.SLASH c.


(** The text of an absolute normalized path: a leading separator, the
    components joined by separators, and a closing separator when the
    input had one and there is a component to close. *)
Definition absolutePath (segments : list jsstring) (trailing : bool)
  : jsstring :=
  Path.SLASH :: Path.joinWith Path.SLASH segments
    ++ (if trailing && negb (List.length segments =? 0)%nat
        then [Path.SLASH] else []).

(** The text that [path.join] normalizes for [safeBase]. *)
Definition joinedBase (dirname : jsstring) (req : Request) : jsstring :=
  Path.joinWith Path.SLASH
    (filter (fun a => negb (eqb a [])) [dirname; EPUBS; params_bookId req]).



(** A request whose token comes in the query string. *)
Definition request (bookId token subPath : string) : Request :=
  mkRequest (lit bookId) (Some (lit token)) None (lit subPath).

(** A token written from the book identity and the time alone: the book,
    a user ["u"], an expiration made of nines, one more than [now] counts,
    and a last field ["n"]. *)
Definition selfMadeToken (bookId : jsstring) (now : Z) : jsstring :=
  bookId ++ UNDERSCORE :: lit "u" ++ UNDERSCORE
    :: repeat 57%N (S (Z.to_nat now)) ++ UNDERSCORE :: lit "n".

(** The folder of all the books, [path.join(__dirname,
    'epubs_descomprimidos')]. *)
Definition booksFolder (dirname : jsstring) : jsstring :=
  Path.join [dirname; EPUBS].

(** ** Strings *)

Lemma eqb_eq (a b : jsstring) : eqb a b = true <-> a = b.
Proof.
  revert b; induction a as [|x a IH]; intros [|y b]; simpl;
    try (split; [discriminate | discriminate]); try tauto.
  rewrite andb_true_iff, N.eqb_eq, IH.
  split; [intros [-> ->]; reflexivity | intros H; inversion H; auto].
Qed.

Lemma eqb_refl (a : jsstring) : eqb a a = true.
Proof. apply eqb_eq; reflexivity. Qed.

Lemma eqb_neq (a b : jsstring) : eqb a b = false <-> a <> b.
Proof.
  rewrite <- eqb_eq. destruct (eqb a b); split; congruence.
Qed.

Lemma split_not_nil (sep : char) (s : jsstring) : split sep s <> [].
Proof.
  destruct s as [|c s]; simpl; [discriminate|].
  destruct (c =? sep)%N; [discriminate|].
  destruct (split sep s); discriminate.
Qed.

Lemma split_nil_length (sep : char) : List.length (split sep []) = 1%nat.
Proof. reflexivity. Qed.

Lemma differs_false (part : option jsstring) (bookId : jsstring) :
  differs part bookId = false <-> part = Some bookId.
Proof.
  destruct part as [s|]; simpl.
  - rewrite negb_false_iff, eqb_eq. split; congruence.
  - split; discriminate.
Qed.

Lemma differs_true (part : option jsstring) (bookId : jsstring) :
  differs part bookId = true <-> part <> Some bookId.
Proof.
  rewrite <- differs_false. destruct (differs part bookId); split; congruence.
Qed.

Lemma falsy_false (s : jsstring) : falsy s = false <-> s <> [].
Proof. destruct s; simpl; split; congruence. Qed.

(** A token of four segments or more is not the empty string. *)
Lemma four_segments_not_empty (token : jsstring) :
  (4 <= List.length (split UNDERSCORE token))%nat -> token <> [].
Proof. intros H ->. simpl in H. lia. Qed.

(** ** Splitting and joining *)

Lemma split_app (sep : char) (a b : jsstring) :
  split sep (a ++ sep :: b) = split sep a ++ split sep b.
Proof.
  induction a as [|c a IH]; simpl.
  - rewrite N.eqb_refl. reflexivity.
  - destruct (c =? sep)%N; [rewrite IH; reflexivity|].
    rewrite IH. destruct (split sep a) eqn:E; [|reflexivity].
    now apply split_not_nil in E.
Qed.

Lemma split_no_sep (sep : char) (s : jsstring) :
  ~ In sep s -> split sep s = [s].
Proof.
  induction s as [|c s IH]; simpl; intros H; [reflexivity|].
  destruct (N.eqb_spec c sep) as [->|_]; [tauto|].
  rewrite IH by tauto. reflexivity.
Qed.

Lemma split_pieces (sep : char) (s : jsstring) :
  Forall (fun piece => ~ In sep piece) (split sep s).
Proof.
  induction s as [|c s IH]; simpl.
  - constructor; [tauto | constructor].
  - destruct (N.eqb_spec c sep) as [->|Hc].
    + constructor; [simpl; tauto | exact IH].
    + destruct (split sep s) as [|piece pieces].
      * constructor; [simpl; intuition congruence | constructor].
      * inversion IH; subst. constructor; [|assumption].
        simpl. intuition congruence.
Qed.

Lemma joinWith_cons (sep : char) (p : jsstring) (rest : list jsstring) :
  rest <> [] -> Path.joinWith sep (p :: rest) = p ++ sep :: Path.joinWith sep rest.
Proof. destruct rest; [congruence | reflexivity]. Qed.

Lemma joinWith_app (sep : char) (l1 l2 : list jsstring) :
  l1 <> [] -> l2 <> [] ->
  Path.joinWith sep (l1 ++ l2)
  = Path.joinWith sep l1 ++ sep :: Path.joinWith sep l2.
Proof.
  intros H1 H2. induction l1 as [|p l1 IH]; [congruence|].
  destruct l1 as [|q l1].
  - simpl app. rewrite joinWith_cons by assumption. reflexivity.
  - change ((p :: q :: l1) ++ l2) with (p :: (q :: l1) ++ l2).
    rewrite joinWith_cons by discriminate.
    rewrite IH by discriminate.
    rewrite (joinWith_cons sep p (rest := q :: l1)) by discriminate.
    rewrite <- app_assoc. reflexivity.
Qed.

(** Joining pieces that hold no separator and splitting again gives the
    pieces back. *)
Lemma split_joinWith (sep : char) (l : list jsstring) :
  l <> [] -> Forall (fun piece => ~ In sep piece) l ->
  split sep (Path.joinWith sep l) = l.
Proof.
  intros Hne Hl. induction l as [|p l IH]; [congruence|].
  inversion Hl; subst. destruct l as [|q l].
  - simpl. apply split_no_sep. assumption.
  - rewrite joinWith_cons by discriminate.
    rewrite split_app, split_no_sep by assumption.
    rewrite IH by (assumption || discriminate). reflexivity.
Qed.

Lemma startsWith_app (p rest : jsstring) : startsWith (p ++ rest) p = true.
Proof.
  induction p as [|c p IH]; simpl; [reflexivity|].
  rewrite N.eqb_refl. exact IH.
Qed.

Lemma startsWith_spec (s p : jsstring) :
  startsWith s p = true <-> exists rest, s = p ++ rest.
Proof.
  revert s. induction p as [|c p IH]; intros s; simpl.
  - split; [intros _; exists s; reflexivity | reflexivity].
  - destruct s as [|d s].
    + split; [discriminate | intros [rest H]; discriminate].
    + rewrite andb_true_iff, N.eqb_eq, IH. split.
      * intros [-> [rest ->]]. exists rest. reflexivity.
      * intros [rest H]. inversion H; subst. split; [reflexivity|].
        exists rest. reflexivity.
Qed.

Lemma componentPrefix_spec (root l : list jsstring) :
  componentPrefix root l = true <-> exists rest, l = root ++ rest.
Proof.
  revert l. induction root as [|r root IH]; intros l; simpl.
  - split; [intros _; exists l; reflexivity | reflexivity].
  - destruct l as [|c l].
    + split; [discriminate | intros [rest H]; discriminate].
    + rewrite andb_true_iff, eqb_eq, IH. split.
      * intros [-> [rest ->]]. exists rest. reflexivity.
      * intros [rest H]. inversion H; subst. split; [reflexivity|].
        exists rest. reflexivity.
Qed.

(** ** Normalization *)

Import Path.

Lemma normalizeStep_skip (allow : bool) (res : list jsstring) (c : jsstring) :
  c = [] \/ c = [DOT] -> normalizeStep allow res c = res.
Proof. intros [-> | ->]; reflexivity. Qed.

Lemma normalizeStep_proper (allow : bool) (res : list jsstring) (c : jsstring) :
  properSegment c -> normalizeStep allow res c = c :: res.
Proof.
  intros (H0 & H1 & H2 & _). unfold normalizeStep.
  apply eqb_neq in H0, H1, H2. rewrite H0, H1, H2. reflexivity.
Qed.

(** Below the root nothing but names is kept. *)
Lemma normalizeStep_keeps_proper (res : list jsstring) (c : jsstring) :
  Forall properSegment res -> ~ In SLASH c ->
  Forall properSegment (normalizeStep false res c).
Proof.
  intros Hres Hc. unfold normalizeStep.
  destruct (eqb c []) eqn:E0; [exact Hres|].
  destruct (eqb c [DOT]) eqn:E1; [exact Hres|]. simpl orb. cbv iota.
  destruct (eqb c [DOT; DOT]) eqn:E2.
  - destruct res as [|top below]; [constructor|].
    inversion Hres; subst.
    destruct (eqb top [DOT; DOT]); assumption.
  - constructor; [|exact Hres].
    apply eqb_neq in E0, E1, E2. unfold properSegment. tauto.
Qed.

Lemma normalize_fold_proper (segments : list jsstring) (res : list jsstring) :
  Forall properSegment res ->
  Forall (fun c => ~ In SLASH c) segments ->
  Forall properSegment (fold_left (normalizeStep false) segments res).
Proof.
  revert res. induction segments as [|c segments IH]; intros res Hres Hs.
  - exact Hres.
  - inversion Hs; subst. simpl. apply IH; [|assumption].
    apply normalizeStep_keeps_proper; assumption.
Qed.

Lemma normalizeSegments_proper (p : jsstring) :
  Forall properSegment (normalizeSegments false p).
Proof.
  unfold normalizeSegments. apply Forall_rev.
  apply normalize_fold_proper; [constructor | apply split_pieces].
Qed.

Lemma joinWith_nil_iff (l : list jsstring) :
  Forall properSegment l -> (joinWith SLASH l = [] <-> l = []).
Proof.
  intros Hl. split; [|intros ->; reflexivity].
  destruct l as [|c l]; [reflexivity|]. inversion Hl as [|? ? (H0 & _) ?]; subst.
  destruct c; [congruence|]. destruct l; discriminate.
Qed.

Lemma trailingSeparator_app (a b : jsstring) :
  b <> [] -> trailingSeparator (a ++ b) = trailingSeparator b.
Proof.
  intros Hb. unfold trailingSeparator. rewrite rev_app_distr.
  destruct (rev b) eqn:E; [|reflexivity].
  apply (f_equal (@rev _)) in E. rewrite rev_involutive in E. now subst.
Qed.

(** Normalizing an absolute path gives the separator-led text of its kept
    components. *)
Lemma normalize_absolute (p : jsstring) :
  isAbsolute p = true ->
  normalize p = absolutePath (normalizeSegments false p) (trailingSeparator p).
Proof.
  intros Habs. destruct p as [|c p]; [discriminate|].
  unfold normalize. rewrite Habs. simpl negb. unfold normalizeString.
  pose proof (normalizeSegments_proper (c :: p)) as Hp.
  pose proof (joinWith_nil_iff Hp) as Hnil.
  unfold absolutePath.
  destruct (joinWith SLASH (normalizeSegments false (c :: p))) as [|x q] eqn:E.
  - rewrite (proj1 Hnil eq_refl). simpl. rewrite andb_false_r. reflexivity.
  - destruct (normalizeSegments false (c :: p)) as [|y l] eqn:E'.
    + discriminate.
    + simpl Nat.eqb. simpl negb. rewrite andb_true_r.
      destruct (trailingSeparator (c :: p)); [reflexivity|].
      rewrite app_nil_r. reflexivity.
Qed.

Lemma filter_proper (l : list jsstring) :
  Forall properSegment l -> filter (fun c => negb (eqb c [])) l = l.
Proof.
  induction 1 as [|c l (H0 & _) _ IH]; [reflexivity|].
  simpl. apply eqb_neq in H0. rewrite H0, IH. reflexivity.
Qed.

(** The components of a normalized absolute path are the kept segments. *)
Lemma components_absolutePath (l : list jsstring) (trailing : bool) :
  Forall properSegment l -> components (absolutePath l trailing) = l.
Proof.
  intros Hl. unfold components, absolutePath.
  assert (Hs : Forall (fun c => ~ In SLASH c) l).
  { eapply Forall_impl; [|exact Hl]. intros c (_ & _ & _ & H). exact H. }
  change (SLASH :: ?x) with ([] ++ SLASH :: x). rewrite split_app.
  destruct l as [|c l].
  - simpl. rewrite andb_false_r. reflexivity.
  - simpl Nat.eqb. simpl negb. rewrite andb_true_r.
    destruct trailing.
    + rewrite split_app, split_joinWith by (assumption || discriminate).
      simpl split. rewrite !filter_app, (filter_proper Hl).
      simpl. rewrite app_nil_r. reflexivity.
    + rewrite app_nil_r, split_joinWith by (assumption || discriminate).
      simpl split. rewrite filter_app, (filter_proper Hl).
      reflexivity.
Qed.

Lemma absolutePath_startsWith (root rest : list jsstring) (trailing : bool) :
  startsWith (absolutePath (root ++ rest) trailing) (absolutePath root false)
  = true.
Proof.
  unfold absolutePath. simpl andb. cbv iota. rewrite app_nil_r.
  cbn [startsWith]. rewrite N.eqb_refl. cbn [andb].
  destruct root as [|r root]; [reflexivity|].
  destruct rest as [|c rest].
  - rewrite app_nil_r. apply startsWith_app.
  - rewrite joinWith_app by discriminate.
    rewrite <- app_assoc. apply startsWith_app.
Qed.

(** ** The two joins of the handler *)

Lemma keptBase_not_nil (dirname bookId : jsstring) :
  filter (fun a => negb (eqb a [])) [dirname; EPUBS; bookId] <> [].
Proof.
  intros H.
  assert (I : In EPUBS (filter (fun a => negb (eqb a []))
                               [dirname; EPUBS; bookId])).
  { apply filter_In. split; [simpl; tauto | reflexivity]. }
  rewrite H in I. exact I.
Qed.

Lemma joinedBase_not_nil (dirname : jsstring) (req : Request) :
  joinedBase dirname req <> [].
Proof.
  unfold joinedBase. simpl filter.
  destruct dirname as [|c d]; destruct (params_bookId req) as [|e b];
    simpl; discriminate.
Qed.

Lemma safeBase_joined (dirname : jsstring) (req : Request) :
  safeBase dirname req = normalize (joinedBase dirname req).
Proof.
  unfold safeBase, join, joinedBase.
  pose proof (keptBase_not_nil dirname (params_bookId req)) as H.
  destruct (filter _ [dirname; EPUBS; params_bookId req]); [congruence|].
  reflexivity.
Qed.

Lemma fullFilePath_joined (dirname : jsstring) (req : Request) :
  fullFilePath dirname req =
    normalize (match req_path req with
               | [] => joinedBase dirname req
               | _ :: _ => joinedBase dirname req ++ SLASH :: req_path req
               end).
Proof.
  unfold fullFilePath, join, joinedBase.
  change [dirname; EPUBS; params_bookId req; req_path req]
    with ([dirname; EPUBS; params_bookId req] ++ [req_path req]).
  rewrite filter_app.
  pose proof (keptBase_not_nil dirname (params_bookId req)) as H.
  destruct (filter _ [dirname; EPUBS; params_bookId req]) as [|k kept] eqn:E;
    [congruence|].
  destruct (req_path req) as [|c rel]; simpl filter.
  - rewrite app_nil_r. reflexivity.
  - change ((k :: kept) ++ [c :: rel]) with (k :: kept ++ [c :: rel]).
    cbv iota. f_equal.
    change (k :: kept ++ [c :: rel]) with ((k :: kept) ++ [c :: rel]).
    rewrite joinWith_app by discriminate. reflexivity.
Qed.

Lemma isAbsolute_app (a b : jsstring) :
  isAbsolute a = true -> isAbsolute (a ++ b) = true.
Proof. destruct a; [discriminate | intros H; exact H]. Qed.

Lemma joinedBase_absolute (dirname : jsstring) (req : Request) :
  isAbsolute dirname = true -> isAbsolute (joinedBase dirname req) = true.
Proof.
  intros H. unfold joinedBase. destruct dirname as [|c d]; [discriminate|].
  simpl filter. destruct (negb (eqb (params_bookId req) [])); simpl; exact H.
Qed.

Lemma joinedBase_no_trailing (dirname : jsstring) (req : Request) :
  isAbsolute dirname = true ->
  trailingSeparator (params_bookId req) = false ->
  trailingSeparator (joinedBase dirname req) = false.
Proof.
  intros Habs Hb. unfold joinedBase.
  destruct dirname as [|c d]; [discriminate|]. simpl filter.
  destruct (params_bookId req) as [|e b] eqn:E; simpl negb; cbv iota.
  - rewrite joinWith_cons by discriminate.
    simpl joinWith. rewrite trailingSeparator_app by discriminate.
    reflexivity.
  - rewrite joinWith_cons by discriminate.
    rewrite joinWith_cons by discriminate. simpl joinWith.
    replace ((c :: d) ++ SLASH :: EPUBS ++ SLASH :: e :: b)
      with (((c :: d) ++ SLASH :: EPUBS ++ [SLASH]) ++ e :: b)
      by (rewrite <- app_assoc; simpl; rewrite <- ?app_assoc; reflexivity).
    rewrite trailingSeparator_app by discriminate. exact Hb.
Qed.

(** With an absolute [__dirname], both joins are normalized absolute
    paths, and [safeBase] has no closing separator unless [bookId] ends
    with one. *)
Lemma safeBase_absolutePath (dirname : jsstring) (req : Request) :
  isAbsolute dirname = true ->
  trailingSeparator (params_bookId req) = false ->
  safeBase dirname req
  = absolutePath (normalizeSegments false (joinedBase dirname req)) false.
Proof.
  intros Habs Hb. rewrite safeBase_joined.
  rewrite normalize_absolute by (apply joinedBase_absolute; exact Habs).
  rewrite joinedBase_no_trailing by assumption. reflexivity.
Qed.

Lemma fullFilePath_absolutePath (dirname : jsstring) (req : Request) :
  isAbsolute dirname = true ->
  exists (segments : list jsstring) (trailing : bool),
    Forall properSegment segments /\
    fullFilePath dirname req = absolutePath segments trailing.
Proof.
  intros Habs. rewrite fullFilePath_joined.
  pose proof (@joinedBase_absolute dirname req Habs) as J.
  destruct (req_path req) as [|c rel].
  - rewrite normalize_absolute by exact J.
    eexists _, _. split; [apply normalizeSegments_proper | reflexivity].
  - rewrite normalize_absolute by (apply isAbsolute_app; exact J).
    eexists _, _. split; [apply normalizeSegments_proper | reflexivity].
Qed.

(** ** The token validation *)

(** What the validation does once a non-empty token is found. *)
Lemma tokenValidation_supplied (req : Request) (now : Z) (token : jsstring) :
  userToken req = Some token -> token <> [] ->
  tokenValidation req now =
    if (List.length (split UNDERSCORE token) <? 4)%nat
       || differs (segment token 0) (params_bookId req)
    then Return tokenInvalidOrWrongBook
    else if match parseIntPart (segment token 2) with
            | None => true
            | Some expiration => (now >? expiration)%Z
            end
    then Return tokenExpiredOrInvalid
    else if differs (segment token 0) (params_bookId req)
    then Return tokenNotForThisBook
    else Continue.
Proof.
  intros Htok Hne. unfold tokenValidation. rewrite Htok.
  apply falsy_false in Hne. rewrite Hne. reflexivity.
Qed.

Lemma handler_return (dirname : jsstring) (req : Request) (now : Z)
      (r : Response) :
  tokenValidation req now = Return r -> handler dirname req now = r.
Proof. intros E. unfold handler. rewrite E. reflexivity. Qed.

Lemma handler_continue (dirname : jsstring) (req : Request) (now : Z) :
  tokenValidation req now = Continue ->
  handler dirname req now = pathResolution dirname req.
Proof. intros E. unfold handler. rewrite E. reflexivity. Qed.

(** The three checks a token has to pass. *)
Lemma tokenValidation_continue
      (req : Request) (now expiration : Z) (token : jsstring) :
  userToken req = Some token ->
  (4 <= List.length (split UNDERSCORE token))%nat ->
  segment token 0 = Some (params_bookId req) ->
  parseIntPart (segment token 2) = Some expiration ->
  (now <= expiration)%Z ->
  tokenValidation req now = Continue.
Proof.
  intros Htok Hlen Hbook Hexp Hnow.
  rewrite (tokenValidation_supplied req now Htok
             (four_segments_not_empty Hlen)).
  apply differs_false in Hbook. rewrite Hbook, Hexp.
  replace (List.length (split UNDERSCORE token) <? 4)%nat with false
    by (symmetry; apply Nat.ltb_ge; exact Hlen).
  replace (now >? expiration)%Z with false
    by (symmetry; rewrite Z.gtb_ltb; apply Z.ltb_ge; exact Hnow).
  reflexivity.
Qed.

(** ** [parseInt] *)

Ltac decide_comparisons :=
  repeat match goal with
    | |- context [(?a =? ?b)%N] =>
        replace (a =? b)%N with false by (symmetry; apply N.eqb_neq; lia)
    | |- context [(?a <=? ?b)%N] =>
        first [ replace (a <=? b)%N with false
                  by (symmetry; apply N.leb_gt; lia)
              | replace (a <=? b)%N with true
                  by (symmetry; apply N.leb_le; lia) ]
    end.

Lemma isDigit_bounds (c : char) : isDigit c = true <-> (48 <= c <= 57)%N.
Proof.
  unfold isDigit. rewrite andb_true_iff, !N.leb_le. tauto.
Qed.

Lemma digit_not_space (c : char) : isDigit c = true -> isWhiteSpace c = false.
Proof.
  intros H. apply isDigit_bounds in H. unfold isWhiteSpace.
  decide_comparisons. reflexivity.
Qed.

Lemma digit_not_sign (c : char) :
  isDigit c = true -> (c =? 45)%N = false /\ (c =? 43)%N = false.
Proof.
  intros H. apply isDigit_bounds in H. split; apply N.eqb_neq; lia.
Qed.

Lemma digitPrefix_run (digits rest : jsstring) (acc : option Z) :
  forallb isDigit digits = true ->
  startsWithDigit rest = false ->
  digitPrefix acc (digits ++ rest) =
    match digits with
    | [] => acc
    | _ :: _ =>
        Some (fold_left (fun a c => (10 * a + digitValue c)%Z) digits
                        match acc with Some a => a | None => 0%Z end)
    end.
Proof.
  intros Hd Hr. revert acc. induction digits as [|d ds IH]; intros acc.
  - simpl. destruct rest as [|c rest]; simpl in *; [reflexivity|].
    rewrite Hr. reflexivity.
  - simpl in Hd. apply andb_true_iff in Hd as [Hd Hds].
    simpl. rewrite Hd, (IH Hds). destruct ds; reflexivity.
Qed.

(** [parseInt] reads a run of digits and ignores what follows it. *)
Lemma parseInt_digit_prefix (digits rest : jsstring) :
  digits <> [] -> forallb isDigit digits = true ->
  startsWithDigit rest = false ->
  parseInt (digits ++ rest) = Some (decimalValue digits).
Proof.
  intros Hne Hd Hr. destruct digits as [|d ds]; [congruence|].
  pose proof Hd as Hd'. simpl in Hd'. apply andb_true_iff in Hd' as [Hd0 _].
  unfold parseInt. simpl app. simpl trimStart.
  rewrite (digit_not_space _ Hd0).
  destruct (digit_not_sign _ Hd0) as [-> ->].
  change (d :: ds ++ rest) with ((d :: ds) ++ rest).
  rewrite (digitPrefix_run _ _ None Hd Hr).
  unfold decimalValue. f_equal.
  destruct (fold_left _ (d :: ds) 0%Z); reflexivity.
Qed.

Lemma digitPrefix_started (z : Z) (s : jsstring) :
  digitPrefix (Some z) s <> None.
Proof.
  revert z. induction s as [|c s IH]; intros z; simpl; [discriminate|].
  destruct (isDigit c); [apply IH | discriminate].
Qed.

Lemma digitPrefix_None (s : jsstring) :
  digitPrefix None s = None <-> startsWithDigit s = false.
Proof.
  destruct s as [|c s]; simpl; [tauto|].
  destruct (isDigit c); [|tauto].
  split; [|discriminate]. intros H. now apply digitPrefix_started in H.
Qed.

(** [parseInt] returns NaN exactly on the strings that do not begin with an
    integer. *)
Lemma parseInt_NaN (s : jsstring) :
  parseInt s = None <-> noLeadingInteger s = true.
Proof.
  unfold parseInt, noLeadingInteger, dropSign.
  rewrite negb_true_iff.
  destruct (trimStart s) as [|c s1]; [simpl; tauto|].
  destruct (c =? 45)%N; simpl orb; cbv iota.
  - rewrite <- digitPrefix_None.
    destruct (digitPrefix None s1); split; congruence.
  - destruct (c =? 43)%N; simpl orb; cbv iota;
      rewrite <- digitPrefix_None;
      match goal with
      | |- context [digitPrefix None ?x] => destruct (digitPrefix None x)
      end; split; congruence.
Qed.

(** ** Claims on the token validation *)

(** C2.  A supplied token whose segment 0 differs from the book of the URL
    is denied with the 403 response "Token inválido o no corresponde al
    libro", the handler's answer to a token of another book.  The denial
    holds at every time [now], for every expiration field and every
    requested path: the expiration is not even read. *)
Theorem resource_mismatch_denied
        (dirname : jsstring) (req : Request) (now : Z) (token : jsstring) :
  userToken req = Some token ->
  token <> [] ->
  segment token 0 <> Some (params_bookId req) ->
  tokenValidation req now = Return tokenInvalidOrWrongBook /\
  handler dirname req now = tokenInvalidOrWrongBook.
Proof.
  intros Htok Hne Hdiff.
  assert (E : tokenValidation req now = Return tokenInvalidOrWrongBook).
  { rewrite (tokenValidation_supplied req now Htok Hne).
    apply differs_true in Hdiff. rewrite Hdiff, orb_true_r. reflexivity. }
  split; [exact E | apply handler_return; exact E].
Qed.

Lemma resource_mismatch_denied_witness :
  handler (lit "/data")
          (request "book1" "book2_userA_9999999999999_xyz" "/OEBPS/chapter1.xhtml")
          1700000000000
  = tokenInvalidOrWrongBook.
Proof.
  apply (resource_mismatch_denied (lit "/data")
           (request "book1" "book2_userA_9999999999999_xyz" "/OEBPS/chapter1.xhtml")
           1700000000000 (token := lit "book2_userA_9999999999999_xyz")).
  - reflexivity.
  - vm_compute. discriminate.
  - vm_compute. discriminate.
Defined.

(** C3.  A token of at least four segments, whose segment 0 is the book of
    the URL and whose segment 2 parses as an expiration with
    [now <= expiration], passes the validation: the handler goes on to the
    path resolution. *)
Theorem well_formed_token_allowed
        (dirname : jsstring) (req : Request) (now expiration : Z)
        (token : jsstring) :
  userToken req = Some token ->
  (4 <= List.length (split UNDERSCORE token))%nat ->
  segment token 0 = Some (params_bookId req) ->
  parseIntPart (segment token 2) = Some expiration ->
  (now <= expiration)%Z ->
  tokenValidation req now = Continue /\
  handler dirname req now = pathResolution dirname req.
Proof.
  intros Htok Hlen Hbook Hexp Hnow.
  pose proof (tokenValidation_continue req Htok Hlen Hbook Hexp Hnow) as E.
  split; [exact E | apply handler_continue; exact E].
Qed.

Lemma well_formed_token_allowed_witness :
  tokenValidation
    (request "book1" "book1_userA_9999999999999_xyz" "/OEBPS/chapter1.xhtml")
    1700000000000 = Continue /\
  handler (lit "/data")
    (request "book1" "book1_userA_9999999999999_xyz" "/OEBPS/chapter1.xhtml")
    1700000000000
  = pathResolution (lit "/data")
      (request "book1" "book1_userA_9999999999999_xyz" "/OEBPS/chapter1.xhtml").
Proof.
  apply (well_formed_token_allowed (lit "/data")
           (request "book1" "book1_userA_9999999999999_xyz" "/OEBPS/chapter1.xhtml")
           (now := 1700000000000) (expiration := 9999999999999)
           (token := lit "book1_userA_9999999999999_xyz")).
  - reflexivity.
  - vm_compute. lia.
  - reflexivity.
  - reflexivity.
  - lia.
Defined.

(** C4, as stated, fails.  Token ["book1_userA_9999999999999abc_xyz"] for book
    ["book1"] at time 1700000000000: segment 2 is ["9999999999999abc"], which is not
    a valid non-negative decimal integer, yet the token passes the
    validation and the file is read. *)
Lemma malformed_expiration_counterexample :
  segment (lit "book1_userA_9999999999999abc_xyz") 2 = Some (lit "9999999999999abc") /\
  validDecimalInteger (lit "9999999999999abc") = false /\
  tokenValidation
    (request "book1" "book1_userA_9999999999999abc_xyz" "/OEBPS/chapter1.xhtml")
    1700000000000 = Continue /\
  handler (lit "/data")
    (request "book1" "book1_userA_9999999999999abc_xyz" "/OEBPS/chapter1.xhtml")
    1700000000000
  = ReadFile (lit "/data/epubs_descomprimidos/book1/OEBPS/chapter1.xhtml").
Proof. vm_compute. repeat split. Qed.

(** C4, amended.  A token of at least four segments for the book of the
    URL whose expiration field does not begin with an integer (after
    optional white space and one optional sign there is no decimal digit,
    so [parseInt] yields NaN) is denied at every time [now], with the 403
    response "Token expirado o inválido", which is also the response to an
    expired token. *)
Theorem malformed_expiration_denied
        (dirname : jsstring) (req : Request) (token field : jsstring) :
  userToken req = Some token ->
  (4 <= List.length (split UNDERSCORE token))%nat ->
  segment token 0 = Some (params_bookId req) ->
  segment token 2 = Some field ->
  noLeadingInteger field = true ->
  forall now : Z,
    tokenValidation req now = Return tokenExpiredOrInvalid /\
    handler dirname req now = tokenExpiredOrInvalid.
Proof.
  intros Htok Hlen Hbook Hfield Hnan now.
  assert (E : tokenValidation req now = Return tokenExpiredOrInvalid).
  { rewrite (tokenValidation_supplied req now Htok
               (four_segments_not_empty Hlen)).
    apply differs_false in Hbook. rewrite Hbook, Hfield. simpl parseIntPart.
    apply parseInt_NaN in Hnan. rewrite Hnan.
    replace (List.length (split UNDERSCORE token) <? 4)%nat with false
      by (symmetry; apply Nat.ltb_ge; exact Hlen).
    reflexivity. }
  split; [exact E | apply handler_return; exact E].
Qed.

Lemma malformed_expiration_denied_witness :
  tokenValidation (request "book1" "book1_userA_ -abc_xyz" "/OEBPS/chapter1.xhtml") 0
  = Return tokenExpiredOrInvalid /\
  handler (lit "/data")
          (request "book1" "book1_userA_ -abc_xyz" "/OEBPS/chapter1.xhtml") 0
  = tokenExpiredOrInvalid.
Proof.
  apply (malformed_expiration_denied (lit "/data")
           (request "book1" "book1_userA_ -abc_xyz" "/OEBPS/chapter1.xhtml")
           (token := lit "book1_userA_ -abc_xyz") (field := lit " -abc")).
  - reflexivity.
  - vm_compute. lia.
  - reflexivity.
  - reflexivity.
  - reflexivity.
Defined.

(** C5.  For a token that is valid apart from its age, a request at the
    expiration instant itself passes, and a request one millisecond later
    is denied with the 403 response "Token expirado o inválido". *)
Theorem expiration_boundary
        (dirname : jsstring) (req : Request) (expiration : Z)
        (token : jsstring) :
  userToken req = Some token ->
  (4 <= List.length (split UNDERSCORE token))%nat ->
  segment token 0 = Some (params_bookId req) ->
  parseIntPart (segment token 2) = Some expiration ->
  tokenValidation req expiration = Continue /\
  tokenValidation req (expiration + 1) = Return tokenExpiredOrInvalid /\
  handler dirname req (expiration + 1) = tokenExpiredOrInvalid.
Proof.
  intros Htok Hlen Hbook Hexp.
  pose proof (four_segments_not_empty Hlen) as Hne.
  apply differs_false in Hbook.
  assert (L : (List.length (split UNDERSCORE token) <? 4)%nat = false)
    by (apply Nat.ltb_ge; exact Hlen).
  assert (E : tokenValidation req (expiration + 1)
              = Return tokenExpiredOrInvalid).
  { rewrite (tokenValidation_supplied req _ Htok Hne), Hbook, Hexp, L.
    replace (expiration + 1 >? expiration)%Z with true
      by (symmetry; rewrite Z.gtb_ltb; apply Z.ltb_lt; lia).
    reflexivity. }
  split; [|split; [exact E|]].
  - rewrite (tokenValidation_supplied req _ Htok Hne), Hbook, Hexp, L.
    replace (expiration >? expiration)%Z with false
      by (symmetry; rewrite Z.gtb_ltb; apply Z.ltb_ge; lia).
    reflexivity.
  - apply handler_return; exact E.
Qed.

Lemma expiration_boundary_witness :
  tokenValidation (request "book1" "book1_userA_1000_xyz" "/OEBPS/chapter1.xhtml")
                  1000 = Continue /\
  tokenValidation (request "book1" "book1_userA_1000_xyz" "/OEBPS/chapter1.xhtml")
                  (1000 + 1) = Return tokenExpiredOrInvalid /\
  handler (lit "/data")
          (request "book1" "book1_userA_1000_xyz" "/OEBPS/chapter1.xhtml")
          (1000 + 1) = tokenExpiredOrInvalid.
Proof.
  apply (expiration_boundary (lit "/data")
           (request "book1" "book1_userA_1000_xyz" "/OEBPS/chapter1.xhtml")
           (expiration := 1000) (token := lit "book1_userA_1000_xyz")).
  - reflexivity.
  - vm_compute. lia.
  - reflexivity.
  - reflexivity.
Defined.

(** C6.  A supplied token that splits into fewer than four segments is
    denied with the 403 response "Token inválido o no corresponde al
    libro", the handler's answer to a token of the wrong format. *)
Theorem short_token_denied
        (dirname : jsstring) (req : Request) (now : Z) (token : jsstring) :
  userToken req = Some token ->
  token <> [] ->
  (List.length (split UNDERSCORE token) < 4)%nat ->
  tokenValidation req now = Return tokenInvalidOrWrongBook /\
  handler dirname req now = tokenInvalidOrWrongBook.
Proof.
  intros Htok Hne Hlen.
  assert (E : tokenValidation req now = Return tokenInvalidOrWrongBook).
  { rewrite (tokenValidation_supplied req now Htok Hne).
    apply Nat.ltb_lt in Hlen. rewrite Hlen. reflexivity. }
  split; [exact E | apply handler_return; exact E].
Qed.

Lemma short_token_denied_witness :
  tokenValidation (request "book1" "book1" "/OEBPS/chapter1.xhtml") 1700000000000
  = Return tokenInvalidOrWrongBook /\
  handler (lit "/data") (request "book1" "book1" "/OEBPS/chapter1.xhtml")
          1700000000000
  = tokenInvalidOrWrongBook.
Proof.
  apply (short_token_denied (lit "/data")
           (request "book1" "book1" "/OEBPS/chapter1.xhtml") 1700000000000
           (token := lit "book1")).
  - reflexivity.
  - vm_compute. discriminate.
  - vm_compute. lia.
Defined.

(** C9.  When segment 2 is a run of decimal digits followed by something
    that is not a digit, [parseInt] reads the run and ignores the rest: the
    expiration is the value of the run, and the token passes the validation
    whenever it has four segments or more, names the book of the URL and
    [now] is not past that value. *)
Theorem expiration_numeric_prefix
        (dirname : jsstring) (req : Request) (now : Z)
        (token digits rest : jsstring) :
  userToken req = Some token ->
  (4 <= List.length (split UNDERSCORE token))%nat ->
  segment token 0 = Some (params_bookId req) ->
  segment token 2 = Some (digits ++ rest) ->
  digits <> [] ->
  forallb isDigit digits = true ->
  rest <> [] ->
  startsWithDigit rest = false ->
  (now <= decimalValue digits)%Z ->
  parseInt (digits ++ rest) = Some (decimalValue digits) /\
  tokenValidation req now = Continue /\
  handler dirname req now = pathResolution dirname req.
Proof.
  intros Htok Hlen Hbook Hfield Hne Hd _ Hr Hnow.
  pose proof (parseInt_digit_prefix rest Hne Hd Hr) as P.
  split; [exact P|].
  assert (E : tokenValidation req now = Continue).
  { apply (tokenValidation_continue req (expiration := decimalValue digits)
             Htok Hlen Hbook); [|exact Hnow].
    rewrite Hfield. exact P. }
  split; [exact E | apply handler_continue; exact E].
Qed.

Lemma expiration_numeric_prefix_witness :
  parseInt (lit "1000" ++ lit "abc") = Some (decimalValue (lit "1000")) /\
  tokenValidation
    (request "book1" "book1_userA_1000abc_xyz" "/OEBPS/chapter1.xhtml") 1000
  = Continue /\
  handler (lit "/data")
    (request "book1" "book1_userA_1000abc_xyz" "/OEBPS/chapter1.xhtml") 1000
  = pathResolution (lit "/data")
      (request "book1" "book1_userA_1000abc_xyz" "/OEBPS/chapter1.xhtml").
Proof.
  apply (expiration_numeric_prefix (lit "/data")
           (request "book1" "book1_userA_1000abc_xyz" "/OEBPS/chapter1.xhtml")
           (token := lit "book1_userA_1000abc_xyz")).
  - reflexivity.
  - vm_compute. lia.
  - reflexivity.
  - reflexivity.
  - vm_compute. discriminate.
  - reflexivity.
  - vm_compute. discriminate.
  - reflexivity.
  - vm_compute. discriminate.
Defined.

(** C10.  The second comparison of the token's book with the book of the
    URL (line 74) never fires: a request whose segment 0 differs from the
    book is answered by one of the first two checks, and no request at all
    receives the response "Token no válido para este libro". *)
Theorem double_check_unreachable
        (dirname : jsstring) (req : Request) (now : Z) :
  (forall token : jsstring,
      userToken req = Some token ->
      differs (segment token 0) (params_bookId req) = true ->
      tokenValidation req now = Return tokenMissing \/
      tokenValidation req now = Return tokenInvalidOrWrongBook) /\
  tokenValidation req now <> Return tokenNotForThisBook /\
  handler dirname req now <> tokenNotForThisBook.
Proof.
  assert (V : tokenValidation req now <> Return tokenNotForThisBook).
  { unfold tokenValidation.
    destruct (userToken req) as [token|]; [|discriminate].
    destruct (falsy token); [discriminate|].
    destruct (differs (nth_error (split UNDERSCORE token) 0) (params_bookId req));
      [rewrite orb_true_r; discriminate|].
    rewrite orb_false_r.
    destruct (List.length (split UNDERSCORE token) <? 4)%nat; [discriminate|].
    destruct (match parseIntPart _ with None => true | Some e => (now >? e)%Z end);
      discriminate. }
  split; [|split; [exact V|]].
  - intros token Htok Hdiff. unfold tokenValidation. rewrite Htok.
    destruct (falsy token); [left; reflexivity|].
    unfold segment in Hdiff. rewrite Hdiff, orb_true_r. right; reflexivity.
  - unfold handler, pathResolution.
    destruct (tokenValidation req now) as [r|] eqn:E.
    + intros ->. apply V. reflexivity.
    + destruct (negb _); discriminate.
Qed.

(** ** Redundant segments *)

Lemma normalize_congr (p q : jsstring) :
  p <> [] -> q <> [] ->
  isAbsolute p = isAbsolute q ->
  trailingSeparator p = trailingSeparator q ->
  (forall allow, normalizeSegments allow p = normalizeSegments allow q) ->
  normalize p = normalize q.
Proof.
  intros Hp Hq Ha Ht Hs.
  destruct p as [|c p]; [congruence|]. destruct q as [|d q]; [congruence|].
  unfold normalize, normalizeString. rewrite Ha, Ht, Hs. reflexivity.
Qed.






(** What is inside [safeBase] component by component passes the check of
    line 87. *)
Lemma within_startsWith (dirname : jsstring) (req : Request) :
  isAbsolute dirname = true ->
  trailingSeparator (params_bookId req) = false ->
  within (safeBase dirname req) (fullFilePath dirname req) = true ->
  startsWith (fullFilePath dirname req) (safeBase dirname req) = true.
Proof.
  intros Habs Hb Hin.
  destruct (@fullFilePath_absolutePath dirname req Habs) as (full & t & Hfull & E).
  rewrite (@safeBase_absolutePath dirname req Habs Hb) in *. rewrite E in *.
  unfold within in Hin.
  rewrite !components_absolutePath in Hin
    by (assumption || apply normalizeSegments_proper).
  apply componentPrefix_spec in Hin as [rest ->].
  apply absolutePath_startsWith.
Qed.

(** ** Normalized paths stay as they are *)

Lemma fold_proper (allow : bool) (segments res : list jsstring) :
  Forall properSegment segments ->
  fold_left (normalizeStep allow) segments res = rev segments ++ res.
Proof.
  intros H. revert res. induction H as [|c l Hc _ IH]; intros res.
  - reflexivity.
  - simpl. rewrite (normalizeStep_proper allow res Hc), IH.
    rewrite <- app_assoc. reflexivity.
Qed.

Lemma fold_empty_segment (allow : bool) (res : list jsstring) :
  fold_left (normalizeStep allow) (split SLASH []) res = res.
Proof. reflexivity. Qed.

Lemma no_separator_no_trailing (s : jsstring) :
  ~ In SLASH s -> trailingSeparator s = false.
Proof.
  intros H. unfold trailingSeparator.
  destruct (rev s) as [|c r] eqn:E; [reflexivity|].
  apply N.eqb_neq. intros ->. apply H. apply in_rev. rewrite E. simpl; tauto.
Qed.

Lemma joinWith_no_trailing (l : list jsstring) :
  Forall properSegment l -> trailingSeparator (joinWith SLASH l) = false.
Proof.
  induction 1 as [|c l (H0 & _ & _ & Hs) Hl IH]; [reflexivity|].
  destruct l as [|d l].
  - simpl. apply no_separator_no_trailing. exact Hs.
  - rewrite joinWith_cons by discriminate.
    replace (c ++ SLASH :: joinWith SLASH (d :: l))
      with ((c ++ [SLASH]) ++ joinWith SLASH (d :: l))
      by (rewrite <- app_assoc; reflexivity).
    rewrite trailingSeparator_app; [exact IH|].
    intros E. apply (joinWith_nil_iff Hl) in E. discriminate.
Qed.

Lemma proper_no_separator (l : list jsstring) :
  Forall properSegment l -> Forall (fun c => ~ In SLASH c) l.
Proof.
  intros H. eapply Forall_impl; [|exact H]. intros c (_ & _ & _ & Hc). exact Hc.
Qed.

Lemma trailingSeparator_absolutePath (l : list jsstring) (trailing : bool) :
  Forall properSegment l -> l <> [] ->
  trailingSeparator (absolutePath l trailing) = trailing.
Proof.
  intros Hl Hne. unfold absolutePath.
  destruct l as [|c l]; [congruence|].
  simpl Nat.eqb. simpl negb. rewrite andb_true_r.
  assert (J : joinWith SLASH (c :: l) <> []).
  { intros E. apply (joinWith_nil_iff Hl) in E. discriminate. }
  destruct trailing.
  - rewrite app_comm_cons, trailingSeparator_app by discriminate.
    reflexivity.
  - rewrite app_nil_r.
    pose proof (trailingSeparator_app [SLASH] J) as T.
    change ([SLASH] ++ joinWith SLASH (c :: l))
      with (SLASH :: joinWith SLASH (c :: l)) in T.
    rewrite T. apply joinWith_no_trailing. exact Hl.
Qed.

(** Normalizing a normalized absolute path returns it unchanged. *)
Lemma normalize_absolutePath (l : list jsstring) (trailing : bool) :
  Forall properSegment l ->
  normalize (absolutePath l trailing) = absolutePath l trailing.
Proof.
  intros Hl. rewrite normalize_absolute by reflexivity.
  pose proof (proper_no_separator Hl) as Hs.
  assert (S : normalizeSegments false (absolutePath l trailing) = l).
  { unfold normalizeSegments, absolutePath.
    change (SLASH :: ?x) with ([] ++ SLASH :: x). rewrite split_app.
    destruct l as [|c l].
    - simpl. rewrite andb_false_r. reflexivity.
    - simpl Nat.eqb. simpl negb. rewrite andb_true_r. destruct trailing.
      + rewrite split_app, split_joinWith by (assumption || discriminate).
        rewrite !fold_left_app, !fold_empty_segment.
        rewrite (fold_proper false [] Hl), app_nil_r. apply rev_involutive.
      + rewrite app_nil_r, split_joinWith by (assumption || discriminate).
        rewrite fold_left_app, fold_empty_segment.
        rewrite (fold_proper false [] Hl), app_nil_r. apply rev_involutive. }
  rewrite S. destruct l as [|c l].
  - unfold absolutePath. simpl. rewrite !andb_false_r. reflexivity.
  - rewrite (trailingSeparator_absolutePath trailing Hl) by discriminate.
    reflexivity.
Qed.

Lemma fullFilePath_normalized (dirname : jsstring) (req : Request) :
  isAbsolute dirname = true ->
  normalize (fullFilePath dirname req) = fullFilePath dirname req.
Proof.
  intros Habs.
  destruct (@fullFilePath_absolutePath dirname req Habs) as (l & t & Hl & ->).
  apply normalize_absolutePath. exact Hl.
Qed.

(** ** Claims on the path resolution *)

(** C8.  The outcome of the path resolution is a function of the book and
    of the requested path alone: two requests for the same book and path
    get the same answer from the path check, and the same response from
    the handler once their tokens pass, whatever the tokens, the headers
    and the times of the two requests.  Resolving again what was resolved
    changes nothing either: with an absolute [__dirname] the normalized
    path is its own normal form. *)
Theorem resolution_deterministic :
  (forall (dirname : jsstring) (req1 req2 : Request) (now1 now2 : Z),
      params_bookId req1 = params_bookId req2 ->
      req_path req1 = req_path req2 ->
      pathResolution dirname req1 = pathResolution dirname req2 /\
      (tokenValidation req1 now1 = Continue ->
       tokenValidation req2 now2 = Continue ->
       handler dirname req1 now1 = handler dirname req2 now2)) /\
  (forall (dirname : jsstring) (req : Request),
      Path.isAbsolute dirname = true ->
      Path.join [fullFilePath dirname req] = fullFilePath dirname req).
Proof.
  split.
  - intros dirname req1 req2 now1 now2 Hb Hp.
    assert (E : pathResolution dirname req1 = pathResolution dirname req2).
    { unfold pathResolution, fullFilePath, safeBase. rewrite Hb, Hp.
      reflexivity. }
    split; [exact E|]. intros V1 V2.
    rewrite (@handler_continue dirname req1 now1 V1),
            (@handler_continue dirname req2 now2 V2).
    exact E.
  - intros dirname req Habs.
    pose proof (@fullFilePath_normalized dirname req Habs) as N.
    destruct (@fullFilePath_absolutePath dirname req Habs)
      as (l & t & _ & E).
    unfold join. rewrite E in *. unfold absolutePath in *. simpl filter.
    cbv iota. simpl joinWith. exact N.
Qed.

Lemma resolution_deterministic_witness :
  handler (lit "/data")
    (request "book1" "book1_userA_9999999999999_xyz" "/OEBPS/chapter1.xhtml")
    1700000000000
  = handler (lit "/data")
    (mkRequest (lit "book1") None (Some (lit "book1_userB_1800000000000_abc_d"))
               (lit "/OEBPS/chapter1.xhtml"))
    1800000000000
  /\
  Path.join [fullFilePath (lit "/data")
    (request "book1" "book1_userA_9999999999999_xyz" "/a/../OEBPS//chapter1.xhtml")]
  = fullFilePath (lit "/data")
    (request "book1" "book1_userA_9999999999999_xyz" "/a/../OEBPS//chapter1.xhtml").
Proof.
  split.
  - apply (proj1 resolution_deterministic (lit "/data")
             (request "book1" "book1_userA_9999999999999_xyz"
                      "/OEBPS/chapter1.xhtml")
             (mkRequest (lit "book1") None
                        (Some (lit "book1_userB_1800000000000_abc_d"))
                        (lit "/OEBPS/chapter1.xhtml"))
             1700000000000%Z 1800000000000%Z).
    + reflexivity.
    + reflexivity.
    + vm_compute. reflexivity.
    + vm_compute. reflexivity.
  - apply (proj2 resolution_deterministic (lit "/data")).
    reflexivity.
Defined.

Lemma double_check_unreachable_witness :
  tokenValidation
    (request "book1" "book2_userA_9999999999999_xyz" "/OEBPS/chapter1.xhtml")
    1700000000000 = Return tokenMissing \/
  tokenValidation
    (request "book1" "book2_userA_9999999999999_xyz" "/OEBPS/chapter1.xhtml")
    1700000000000 = Return tokenInvalidOrWrongBook.
Proof.
  apply (proj1 (double_check_unreachable (lit "/data")
           (request "book1" "book2_userA_9999999999999_xyz"
                    "/OEBPS/chapter1.xhtml")
           1700000000000)
           (lit "book2_userA_9999999999999_xyz")).
  - reflexivity.
  - reflexivity.
Defined.

(** ** The scenarios of the specification *)

Example scenario_1_allow :
  handler (lit "/data")
          (request "book1" "book1_userA_9999999999999_xyz" "/OEBPS/chapter1.xhtml")
          1700000000000
  = ReadFile (lit "/data/epubs_descomprimidos/book1/OEBPS/chapter1.xhtml").
Proof. vm_compute. reflexivity. Qed.

Example scenario_2_expired :
  handler (lit "/data")
          (request "book1" "book1_userA_1000_xyz" "/OEBPS/chapter1.xhtml") 2000
  = tokenExpiredOrInvalid.
Proof. vm_compute. reflexivity. Qed.

Example scenario_3_other_book :
  handler (lit "/data")
          (request "book1" "book2_userA_9999999999999_xyz" "/OEBPS/chapter1.xhtml")
          1700000000000
  = tokenInvalidOrWrongBook.
Proof. vm_compute. reflexivity. Qed.

Example scenario_4_one_segment :
  handler (lit "/data") (request "book1" "book1" "/OEBPS/chapter1.xhtml")
          1700000000000
  = tokenInvalidOrWrongBook.
Proof. vm_compute. reflexivity. Qed.

Example scenario_5_traversal :
  pathResolution (lit "/data")
    (request "book1" "book1_userA_9999999999999_xyz" "../../../etc/passwd")
  = invalidFilePath.
Proof. vm_compute. reflexivity. Qed.

Example scenario_6_resolved :
  pathResolution (lit "/data")
    (request "book1" "book1_userA_9999999999999_xyz" "OEBPS/chapter1.xhtml")
  = ReadFile (lit "/data/epubs_descomprimidos/book1/OEBPS/chapter1.xhtml").
Proof. vm_compute. reflexivity. Qed.

Example no_token :
  handler (lit "/data") (mkRequest (lit "book1") (Some []) None (lit "/x")) 0
  = tokenMissing.
Proof. vm_compute. reflexivity. Qed.

Example header_token :
  handler (lit "/data")
    (mkRequest (lit "book1") (Some [])
               (Some (lit "book1_userA_9999999999999_xyz")) (lit "/toc.ncx"))
    1700000000000
  = ReadFile (lit "/data/epubs_descomprimidos/book1/toc.ncx").
Proof. vm_compute. reflexivity. Qed.

Example traversal_redundant_separator :
  pathResolution (lit "/data")
    (request "book1" "book1_userA_9999999999999_xyz" "/a//../../x")
  = invalidFilePath.
Proof. vm_compute. reflexivity. Qed.

Example negative_expiration_is_expired :
  parseInt (lit "-5") = Some (-5)%Z /\
  handler (lit "/data") (request "book1" "book1_userA_-5_xyz" "/x") 0
  = tokenExpiredOrInvalid.
Proof. vm_compute. split; reflexivity. Qed.

(** ** [path.join] on the examples of Node's documentation and tests *)

Example join_documented :
  Path.join [lit "/foo"; lit "bar"; lit "baz/asdf"; lit "quux"; lit ".."]
  = lit "/foo/bar/baz/asdf".
Proof. vm_compute. reflexivity. Qed.

Example join_empty_arguments : Path.join [lit ""; lit ""] = lit ".".
Proof. vm_compute. reflexivity. Qed.

Example join_above_relative :
  Path.join [lit "foo"; lit "../../../bar"] = lit "../../bar".
Proof. vm_compute. reflexivity. Qed.

Example join_above_root :
  Path.join [lit "/foo"; lit "../../../bar"] = lit "/bar".
Proof. vm_compute. reflexivity. Qed.

Example normalize_documented :
  Path.normalize (lit "/foo/bar//baz/asdf/quux/..") = lit "/foo/bar/baz/asdf".
Proof. vm_compute. reflexivity. Qed.

Example normalize_keeps_closing_separator :
  Path.normalize (lit "bar/foo../../") = lit "bar/" /\
  Path.normalize (lit "bar/foo../..") = lit "bar".
Proof. vm_compute. split; reflexivity. Qed.

Example normalize_dots_in_names :
  Path.normalize (lit "../.../.././.../../../bar") = lit "../../bar" /\
  Path.normalize (lit "bar/foo..") = lit "bar/foo..".
Proof. vm_compute. split; reflexivity. Qed.

Example normalize_leading_separators :
  Path.normalize (lit "///..//./foo/.//bar") = lit "/foo/bar".
Proof. vm_compute. reflexivity. Qed.

(** ** Further properties of the token validation *)

Lemma segment_0_exists (token : jsstring) :
  exists s, segment token 0 = Some s /\ ~ In UNDERSCORE s.
Proof.
  unfold segment. pose proof (split_pieces UNDERSCORE token) as H.
  destruct (split UNDERSCORE token) as [|s l] eqn:E.
  - now apply split_not_nil in E.
  - inversion H; subst. exists s. split; [reflexivity | assumption].
Qed.

(** What a passing token looks like. *)
Lemma tokenValidation_continue_inv (req : Request) (now : Z) :
  tokenValidation req now = Continue ->
  exists token expiration,
    userToken req = Some token /\
    (4 <= List.length (split UNDERSCORE token))%nat /\
    segment token 0 = Some (params_bookId req) /\
    parseIntPart (segment token 2) = Some expiration /\
    (now <= expiration)%Z.
Proof.
  unfold tokenValidation.
  destruct (userToken req) as [token|] eqn:Htok; [|discriminate].
  destruct (falsy token); [discriminate|].
  destruct (List.length (split UNDERSCORE token) <? 4)%nat eqn:L;
    [discriminate|].
  destruct (differs (nth_error (split UNDERSCORE token) 0) (params_bookId req))
    eqn:D; [discriminate|]. simpl orb. cbv iota.
  destruct (parseIntPart (nth_error (split UNDERSCORE token) 2))
    as [expiration|] eqn:P; [|discriminate].
  destruct (now >? expiration)%Z eqn:G; [discriminate|].
  intros _. exists token, expiration.
  apply Nat.ltb_ge in L. apply differs_false in D.
  rewrite Z.gtb_ltb in G. apply Z.ltb_ge in G.
  repeat split; assumption.
Qed.

(** X1.  The validation lets a request pass exactly when its token has at
    least four segments, names the book of the URL in segment 0 and carries
    in segment 2 an expiration that [parseInt] reads and that [now] has not
    passed.  Nothing else opens the way to the files. *)
Theorem allowed_exactly_when (req : Request) (now : Z) :
  tokenValidation req now = Continue <->
  exists token expiration,
    userToken req = Some token /\
    (4 <= List.length (split UNDERSCORE token))%nat /\
    segment token 0 = Some (params_bookId req) /\
    parseIntPart (segment token 2) = Some expiration /\
    (now <= expiration)%Z.
Proof.
  split.
  - apply tokenValidation_continue_inv.
  - intros (token & expiration & Htok & Hlen & Hbook & Hexp & Hnow).
    exact (tokenValidation_continue req Htok Hlen Hbook Hexp Hnow).
Qed.

Lemma allowed_exactly_when_witness :
  exists token expiration,
    userToken (request "book1" "book1_userA_2000_xyz" "/toc.ncx") = Some token /\
    (4 <= List.length (split UNDERSCORE token))%nat /\
    segment token 0 = Some (lit "book1") /\
    parseIntPart (segment token 2) = Some expiration /\
    (1999 <= expiration)%Z.
Proof.
  apply (proj1 (allowed_exactly_when
                  (request "book1" "book1_userA_2000_xyz" "/toc.ncx") 1999)).
  reflexivity.
Defined.

Lemma tokenValidation_time (req : Request) (earlier later : Z) :
  (earlier <= later)%Z ->
  (tokenValidation req later = Continue ->
   tokenValidation req earlier = Continue) /\
  (forall r, tokenValidation req earlier = Return r ->
             tokenValidation req later = Return r).
Proof.
  intros Hle. unfold tokenValidation.
  destruct (userToken req) as [token|]; [|split; [discriminate | auto]].
  destruct (falsy token); [split; [discriminate | auto]|].
  destruct (List.length (split UNDERSCORE token) <? 4)%nat;
    [split; [discriminate | auto]|].
  destruct (differs (nth_error (split UNDERSCORE token) 0)
                    (params_bookId req));
    [split; [discriminate | auto]|]. simpl orb. cbv iota.
  destruct (parseIntPart (nth_error (split UNDERSCORE token) 2))
    as [expiration|]; [|split; [discriminate | auto]].
  destruct (later >? expiration)%Z eqn:GL;
    destruct (earlier >? expiration)%Z eqn:GE;
    rewrite Z.gtb_ltb in GL, GE;
    try apply Z.ltb_lt in GL; try apply Z.ltb_ge in GL;
    try apply Z.ltb_lt in GE; try apply Z.ltb_ge in GE;
    try lia; split; auto; discriminate.
Qed.

(** X2.  Time only works against a token.  A request that passes at some
    instant passes at every earlier instant, and a request that is denied
    is denied with the same response at every later instant: no denial
    turns into an admission as the clock advances. *)
Theorem denial_is_final (req : Request) (earlier later : Z) :
  (earlier <= later)%Z ->
  (tokenValidation req later = Continue ->
   tokenValidation req earlier = Continue) /\
  (forall r, tokenValidation req earlier = Return r ->
             tokenValidation req later = Return r).
Proof. apply tokenValidation_time. Qed.

Lemma denial_is_final_witness :
  tokenValidation (request "book1" "book1_userA_1000_xyz" "/toc.ncx") 5000
  = Return tokenExpiredOrInvalid.
Proof.
  apply (proj2 (denial_is_final
                  (request "book1" "book1_userA_1000_xyz" "/toc.ncx")
                  (earlier := 1001) (later := 5000) ltac:(lia))).
  reflexivity.
Defined.

(** X3.  The user identity (segment 1) and everything from segment 3 on
    are not looked at: two tokens of at least four segments with the same
    segment 0 and the same segment 2 get the same verdict for the same
    book at the same time. *)
Theorem user_and_nonce_ignored
        (req1 req2 : Request) (now : Z) (token1 token2 : jsstring) :
  params_bookId req1 = params_bookId req2 ->
  userToken req1 = Some token1 ->
  userToken req2 = Some token2 ->
  (4 <= List.length (split UNDERSCORE token1))%nat ->
  (4 <= List.length (split UNDERSCORE token2))%nat ->
  segment token1 0 = segment token2 0 ->
  segment token1 2 = segment token2 2 ->
  tokenValidation req1 now = tokenValidation req2 now.
Proof.
  intros Hb H1 H2 L1 L2 S0 S2.
  rewrite (tokenValidation_supplied req1 now H1 (four_segments_not_empty L1)).
  rewrite (tokenValidation_supplied req2 now H2 (four_segments_not_empty L2)).
  rewrite Hb, S0, S2.
  apply Nat.ltb_ge in L1, L2. rewrite L1, L2. reflexivity.
Qed.

Lemma user_and_nonce_ignored_witness :
  tokenValidation (request "book1" "book1_userA_2000_xyz" "/toc.ncx") 1500
  = tokenValidation
      (mkRequest (lit "book1") None (Some (lit "book1__2000___")) (lit "/a")) 1500.
Proof.
  apply (user_and_nonce_ignored
           (request "book1" "book1_userA_2000_xyz" "/toc.ncx")
           (mkRequest (lit "book1") None (Some (lit "book1__2000___")) (lit "/a"))
           1500
           (token1 := lit "book1_userA_2000_xyz")
           (token2 := lit "book1__2000___")).
  - reflexivity.
  - reflexivity.
  - reflexivity.
  - vm_compute. lia.
  - vm_compute. lia.
  - reflexivity.
  - reflexivity.
Defined.

Lemma underscore_book_denied (dirname : jsstring) (req : Request) (now : Z) :
  In UNDERSCORE (params_bookId req) ->
  handler dirname req now = tokenMissing \/
  handler dirname req now = tokenInvalidOrWrongBook.
Proof.
  intros Hin. unfold handler, tokenValidation.
  destruct (userToken req) as [token|]; [|left; reflexivity].
  destruct (falsy token); [left; reflexivity|].
  destruct (segment_0_exists token) as (s & Hs & Hno).
  unfold segment in Hs. rewrite Hs.
  replace (differs (Some s) (params_bookId req)) with true.
  - rewrite orb_true_r. right; reflexivity.
  - symmetry. apply differs_true. intros E. inversion E; subst. tauto.
Qed.

(** X4.  A book whose identity contains an underscore cannot be read with
    any token: segment 0 of a token never contains the separator, so it
    never equals such an identity.  Every request for the book is answered
    403, except the one whose [userToken] is not a text (a repeated or
    bracketed parameter), which ends in the [TypeError] of line 57; no
    file is read. *)
Theorem underscore_book_locked_out
        (dirname bookId : jsstring) (query : QueryValue)
        (authorization : option jsstring) (path : jsstring) (now : Z) :
  In UNDERSCORE bookId ->
  (query = Structured /\
   handlerOn dirname bookId query authorization path now = Throws) \/
  (query <> Structured /\
   (handlerOn dirname bookId query authorization path now
    = Responds tokenMissing \/
    handlerOn dirname bookId query authorization path now
    = Responds tokenInvalidOrWrongBook)).
Proof.
  intros Hin. destruct query as [|s|].
  - right. split; [discriminate|]. cbn [handlerOn].
    destruct (@underscore_book_denied dirname
                (mkRequest bookId None authorization path) now Hin)
      as [-> | ->]; auto.
  - right. split; [discriminate|]. cbn [handlerOn].
    destruct (@underscore_book_denied dirname
                (mkRequest bookId (Some s) authorization path) now Hin)
      as [-> | ->]; auto.
  - left. split; reflexivity.
Qed.

Lemma underscore_book_locked_out_witness :
  (Text (lit "my_book_userA_9999999999999_xyz") = Structured /\
   handlerOn (lit "/data") (lit "my_book")
             (Text (lit "my_book_userA_9999999999999_xyz")) None
             (lit "/") 1700000000000 = Throws) \/
  (Text (lit "my_book_userA_9999999999999_xyz") <> Structured /\
   (handlerOn (lit "/data") (lit "my_book")
              (Text (lit "my_book_userA_9999999999999_xyz")) None
              (lit "/") 1700000000000 = Responds tokenMissing \/
    handlerOn (lit "/data") (lit "my_book")
              (Text (lit "my_book_userA_9999999999999_xyz")) None
              (lit "/") 1700000000000 = Responds tokenInvalidOrWrongBook)).
Proof.
  apply (@underscore_book_locked_out (lit "/data") (lit "my_book")
           (Text (lit "my_book_userA_9999999999999_xyz")) None (lit "/")
           1700000000000%Z).
  vm_compute. tauto.
Defined.

Lemma nines_are_digits (n : nat) : forallb isDigit (repeat 57%N n) = true.
Proof. induction n as [|n IH]; [reflexivity | exact IH]. Qed.

Lemma nines_value (n : nat) (a : Z) :
  fold_left (fun a c => (10 * a + digitValue c)%Z) (repeat 57%N n) a
  = ((a + 1) * 10 ^ Z.of_nat n - 1)%Z.
Proof.
  revert a. induction n as [|n IH]; intros a.
  - simpl. lia.
  - cbn [repeat fold_left]. rewrite IH.
    change (digitValue 57%N) with 9%Z.
    rewrite Nat2Z.inj_succ, Z.pow_succ_r by lia. lia.
Qed.

Lemma nines_no_underscore (n : nat) : ~ In UNDERSCORE (repeat 57%N n).
Proof. intros H. apply repeat_spec in H. discriminate. Qed.

Lemma nines_cover (now : Z) :
  (now <= decimalValue (repeat 57%N (S (Z.to_nat now))))%Z.
Proof.
  unfold decimalValue. rewrite nines_value.
  pose proof (Z.pow_gt_lin_r 10 (Z.of_nat (S (Z.to_nat now)))
                ltac:(lia) ltac:(lia)) as P.
  lia.
Qed.

Lemma selfMadeToken_split (bookId : jsstring) (now : Z) :
  ~ In UNDERSCORE bookId ->
  split UNDERSCORE (selfMadeToken bookId now)
  = [bookId; lit "u"; repeat 57%N (S (Z.to_nat now)); lit "n"].
Proof.
  intros Hb. unfold selfMadeToken.
  rewrite split_app, (@split_no_sep _ _ Hb).
  rewrite split_app. change (split UNDERSCORE (lit "u")) with [lit "u"].
  rewrite split_app, (@split_no_sep _ _ (@nines_no_underscore _)).
  reflexivity.
Qed.

(** X5.  The validation asks for no secret.  For a book whose identity has
    no underscore, the token spelled from that identity, any user, a long
    enough run of nines and any last field passes at the time it is spelled
    for: whoever knows the identity of a book can write a token for it. *)
Theorem token_needs_no_secret (req : Request) (now : Z) :
  ~ In UNDERSCORE (params_bookId req) ->
  userToken req = Some (selfMadeToken (params_bookId req) now) ->
  tokenValidation req now = Continue.
Proof.
  intros Hb Htok.
  pose proof (@selfMadeToken_split _ now Hb) as Hs.
  apply (tokenValidation_continue req
           (expiration := decimalValue (repeat 57%N (S (Z.to_nat now)))) Htok).
  - rewrite Hs. simpl. lia.
  - unfold segment. rewrite Hs. reflexivity.
  - unfold segment. rewrite Hs. cbn [nth_error parseIntPart].
    rewrite <- (app_nil_r (repeat 57%N (S (Z.to_nat now)))) at 1.
    apply parseInt_digit_prefix.
    + discriminate.
    + apply nines_are_digits.
    + reflexivity.
  - apply nines_cover.
Qed.

Lemma token_needs_no_secret_witness :
  tokenValidation
    (mkRequest (lit "book1") (Some (selfMadeToken (lit "book1") 12)) None
               (lit "/toc.ncx")) 12
  = Continue.
Proof.
  apply (token_needs_no_secret
           (mkRequest (lit "book1") (Some (selfMadeToken (lit "book1") 12)) None
                      (lit "/toc.ncx")) 12).
  - vm_compute. intuition discriminate.
  - reflexivity.
Defined.

(** X6.  A non-empty token in the query string is the one that counts: the
    [Authorization] header is then not read at all.  When the query string
    has no token, or an empty one, the header stands in for it. *)
Theorem query_token_first
        (bookId p : jsstring) (query header : option jsstring) (now : Z) :
  (forall c t, query = Some (c :: t) ->
     tokenValidation (mkRequest bookId query header p) now
     = tokenValidation (mkRequest bookId query None p) now) /\
  (query = None \/ query = Some [] ->
     tokenValidation (mkRequest bookId query header p) now
     = tokenValidation (mkRequest bookId header None p) now).
Proof.
  split.
  - intros c t ->. reflexivity.
  - intros [-> | ->]; unfold tokenValidation, userToken; simpl;
      destruct header as [[|c t]|]; reflexivity.
Qed.

Lemma query_token_first_witness :
  tokenValidation
    (mkRequest (lit "book1") (Some (lit "book1_x"))
               (Some (lit "book1_userA_9999999999999_xyz")) (lit "/toc.ncx"))
    1700000000000
  = tokenValidation
    (mkRequest (lit "book1") (Some (lit "book1_x")) None (lit "/toc.ncx"))
    1700000000000.
Proof.
  apply (proj1 (query_token_first (lit "book1") (lit "/toc.ncx")
                  (Some (lit "book1_x"))
                  (Some (lit "book1_userA_9999999999999_xyz"))
                  1700000000000)
               98%N (lit "ook1_x")).
  reflexivity.
Defined.

(** X7.  The answer "Token de usuario no proporcionado" is given exactly
    when neither the query string nor the header holds a non-empty token;
    a request that brings any text as its token is never told that the
    token is missing. *)
Theorem missing_token_exactly_when
        (dirname : jsstring) (req : Request) (now : Z) :
  handler dirname req now = tokenMissing <->
  (query_userToken req = None \/ query_userToken req = Some []) /\
  (headers_authorization req = None \/ headers_authorization req = Some []).
Proof.
  unfold handler, tokenValidation, userToken, or_else, pathResolution.
  destruct (query_userToken req) as [[|c t]|];
    destruct (headers_authorization req) as [[|d u]|]; cbn [falsy];
    try (split; [intros _; split; auto | reflexivity]);
    (split; [|intros [[H|H] [H'|H']]; discriminate]);
    intros E; exfalso; revert E;
    repeat match goal with
      | |- context [if ?b then _ else _] => destruct b
      | |- context [match ?o with Some _ => _ | None => _ end] => destruct o
      end; discriminate.
Qed.

Lemma missing_token_exactly_when_witness :
  handler (lit "/data") (mkRequest (lit "book1") (Some []) None (lit "/toc.ncx")) 0
  = tokenMissing.
Proof.
  apply (proj2 (missing_token_exactly_when (lit "/data")
                  (mkRequest (lit "book1") (Some []) None (lit "/toc.ncx")) 0)).
  split; [right | left]; reflexivity.
Defined.

(** ** Further properties of the path check *)

(** Splitting a concatenation: the last piece of the left part and the
    first piece of the right part grow together. *)
Lemma split_app_pieces (sep : char) (a b : jsstring)
      (init : list jsstring) (x : jsstring) :
  split sep a = init ++ [x] ->
  split sep (a ++ b)
  = init ++ match split sep b with
            | r0 :: more => (x ++ r0) :: more
            | [] => [x]
            end.
Proof.
  revert init x. induction a as [|c a IH]; intros init x H.
  - simpl in H. destruct init as [|i init].
    + inversion H; subst. simpl.
      destruct (split sep b) eqn:E; [now apply split_not_nil in E | reflexivity].
    + destruct init; discriminate.
  - cbn [split app] in *. destruct (c =? sep)%N.
    + destruct init as [|i init].
      * inversion H as [[Hx Hs]]. now apply split_not_nil in Hs.
      * inversion H; subst. rewrite (IH init x) by assumption. reflexivity.
    + destruct (split sep a) as [|p ps] eqn:E; [now apply split_not_nil in E|].
      destruct init as [|i init].
      * inversion H; subst. rewrite (IH [] p) by reflexivity. simpl.
        destruct (split sep b); reflexivity.
      * inversion H; subst. rewrite (IH (p :: init) x) by reflexivity.
        reflexivity.
Qed.

Lemma properSegment_EPUBS : properSegment EPUBS.
Proof.
  repeat split; try discriminate.
  vm_compute. intuition discriminate.
Qed.

(** A name appended to a path is appended to its normal form. *)
Lemma normalizeSegments_snoc (x c : jsstring) :
  properSegment c ->
  normalizeSegments false (x ++ SLASH :: c) = normalizeSegments false x ++ [c].
Proof.
  intros Hc. unfold normalizeSegments.
  destruct Hc as (H0 & H1 & H2 & Hs).
  rewrite split_app, (@split_no_sep _ _ Hs), fold_left_app.
  cbn [fold_left].
  rewrite normalizeStep_proper by (repeat split; assumption).
  reflexivity.
Qed.

Lemma trailingSeparator_snoc (x c : jsstring) :
  properSegment c -> trailingSeparator (x ++ SLASH :: c) = false.
Proof.
  intros (H0 & _ & _ & Hs).
  replace (x ++ SLASH :: c) with ((x ++ [SLASH]) ++ c)
    by (rewrite <- app_assoc; reflexivity).
  rewrite trailingSeparator_app by assumption.
  apply no_separator_no_trailing. exact Hs.
Qed.

Lemma booksFolder_absolutePath (dirname : jsstring) :
  isAbsolute dirname = true ->
  booksFolder dirname
  = absolutePath (normalizeSegments false dirname ++ [EPUBS]) false.
Proof.
  intros Habs. unfold booksFolder, join.
  destruct dirname as [|c d]; [discriminate|].
  cbn [filter eqb negb]. change (negb (eqb EPUBS [])) with true. cbv iota.
  rewrite joinWith_cons by discriminate. cbn [joinWith].
  rewrite normalize_absolute by exact Habs.
  rewrite normalizeSegments_snoc, trailingSeparator_snoc
    by apply properSegment_EPUBS.
  reflexivity.
Qed.

Lemma joinedBase_named (dirname : jsstring) (req : Request) :
  isAbsolute dirname = true ->
  params_bookId req <> [] ->
  joinedBase dirname req
  = (dirname ++ SLASH :: EPUBS) ++ SLASH :: params_bookId req.
Proof.
  intros Habs H0. unfold joinedBase.
  destruct dirname as [|c d]; [discriminate|].
  destruct (params_bookId req) as [|e b]; [congruence|].
  cbn [filter eqb negb]. change (negb (eqb EPUBS [])) with true. cbv iota.
  rewrite joinWith_cons by discriminate.
  rewrite joinWith_cons by discriminate. cbn [joinWith].
  rewrite <- app_assoc. reflexivity.
Qed.

Lemma safeBase_proper (dirname : jsstring) (req : Request) :
  isAbsolute dirname = true ->
  properSegment (params_bookId req) ->
  safeBase dirname req
  = absolutePath
      ((normalizeSegments false dirname ++ [EPUBS]) ++ [params_bookId req])
      false.
Proof.
  intros Habs Hb. rewrite safeBase_joined, (@joinedBase_named dirname req Habs (proj1 Hb)).
  rewrite normalize_absolute
    by (apply isAbsolute_app, isAbsolute_app; exact Habs).
  rewrite normalizeSegments_snoc, trailingSeparator_snoc by exact Hb.
  rewrite normalizeSegments_snoc by apply properSegment_EPUBS.
  reflexivity.
Qed.

Lemma filter_nonempty_app_proper (l m : list jsstring) :
  Forall properSegment l ->
  filter (fun c => negb (eqb c [])) (l ++ m)
  = l ++ filter (fun c => negb (eqb c [])) m.
Proof.
  intros Hl. rewrite filter_app, (filter_proper Hl). reflexivity.
Qed.

Lemma joinWith_extend (sep : char) (root : list jsstring)
      (name tail : jsstring) (more : list jsstring) :
  exists suffix,
    joinWith sep (root ++ (name ++ tail) :: more)
    = joinWith sep (root ++ [name]) ++ suffix.
Proof.
  induction root as [|r root [suffix IH]].
  - destruct more as [|m more].
    + exists tail. reflexivity.
    + exists (tail ++ sep :: joinWith sep (m :: more)).
      cbn [app]. rewrite joinWith_cons by discriminate.
      cbn [joinWith]. rewrite <- app_assoc. reflexivity.
  - exists suffix. cbn [app].
    rewrite !joinWith_cons by (destruct root; discriminate).
    rewrite IH, <- app_assoc. reflexivity.
Qed.

(** The text test of line 87, read on components: the path starts with
    the text of [root ++ [name]] exactly when its components are those of
    [root], then one that starts with [name], then any others. *)
Lemma startsWith_components
      (root : list jsstring) (name : jsstring) (l : list jsstring) (t : bool) :
  Forall properSegment root -> properSegment name -> Forall properSegment l ->
  startsWith (absolutePath l t) (absolutePath (root ++ [name]) false) = true
  <-> exists tail more, l = root ++ (name ++ tail) :: more.
Proof.
  intros Hroot Hname Hl. split.
  - intros H. apply startsWith_spec in H as [rest E].
    apply (f_equal components) in E.
    rewrite (@components_absolutePath l t Hl) in E.
    unfold absolutePath in E. simpl andb in E. cbv iota in E.
    rewrite app_nil_r in E. unfold components in E.
    change ((SLASH :: joinWith SLASH (root ++ [name])) ++ rest)
      with ([] ++ SLASH :: joinWith SLASH (root ++ [name]) ++ rest) in E.
    rewrite split_app in E.
    assert (Hall : Forall properSegment (root ++ [name])).
    { apply Forall_app. split; [assumption | constructor; [assumption | constructor]]. }
    rewrite (@split_app_pieces SLASH _ rest root name) in E.
    2:{ apply split_joinWith; [destruct root; discriminate|].
        apply proper_no_separator. exact Hall. }
    destruct (split SLASH rest) as [|r0 more] eqn:R;
      [now apply split_not_nil in R|].
    cbn [split app filter eqb negb] in E.
    rewrite (@filter_nonempty_app_proper root _ Hroot) in E.
    cbn [filter] in E.
    destruct Hname as (N0 & _).
    replace (negb (eqb (name ++ r0) [])) with true in E.
    + eexists _, _. exact E.
    + symmetry. apply negb_true_iff, eqb_neq.
      destruct name; [congruence | discriminate].
  - intros (tail & more & ->).
    destruct (joinWith_extend SLASH root name tail more) as [suffix J].
    unfold absolutePath. rewrite J. simpl andb at 2. cbv iota.
    rewrite app_nil_r. cbn [startsWith]. rewrite N.eqb_refl. cbn [andb].
    rewrite <- app_assoc. apply startsWith_app.
Qed.

Lemma components_booksFolder (dirname : jsstring) :
  isAbsolute dirname = true ->
  components (booksFolder dirname) = normalizeSegments false dirname ++ [EPUBS].
Proof.
  intros Habs. rewrite (@booksFolder_absolutePath dirname Habs).
  apply components_absolutePath. apply Forall_app. split.
  - apply normalizeSegments_proper.
  - constructor; [apply properSegment_EPUBS | constructor].
Qed.

(** X8.  What line 87 lets through, for an absolute [__dirname] and a book
    identity that is a plain name: exactly the requests whose normalized
    path lies in the folder of all the books, in a sub-folder whose name
    begins with the identity of the book.  So no accepted path leaves
    [epubs_descomprimidos], and every request is either accepted with its
    normalized path or answered 400. *)
Theorem accepted_exactly_when (dirname : jsstring) (req : Request) :
  isAbsolute dirname = true ->
  properSegment (params_bookId req) ->
  (pathResolution dirname req = ReadFile (fullFilePath dirname req) <->
   exists tail more,
     components (fullFilePath dirname req)
     = components (booksFolder dirname)
         ++ (params_bookId req ++ tail) :: more) /\
  (pathResolution dirname req = ReadFile (fullFilePath dirname req) \/
   pathResolution dirname req = invalidFilePath).
Proof.
  intros Habs Hb.
  destruct (@fullFilePath_absolutePath dirname req Habs) as (l & t & Hl & E).
  pose proof (@startsWith_components
                (normalizeSegments false dirname ++ [EPUBS])
                (params_bookId req) l t) as S.
  assert (Hroot : Forall properSegment (normalizeSegments false dirname ++ [EPUBS])).
  { apply Forall_app. split; [apply normalizeSegments_proper|].
    constructor; [apply properSegment_EPUBS | constructor]. }
  specialize (S Hroot Hb Hl).
  rewrite (@components_booksFolder dirname Habs).
  unfold pathResolution.
  rewrite (@safeBase_proper dirname req Habs Hb), E.
  rewrite (@components_absolutePath l t Hl).
  destruct (startsWith (absolutePath l t) _) eqn:W; cbn [negb].
  - split; [|left; reflexivity].
    split; [intros _; apply S; reflexivity | reflexivity].
  - split; [|right; reflexivity].
    split; [discriminate|]. intros H. apply S in H. discriminate.
Qed.

Lemma accepted_exactly_when_witness :
  exists tail more,
    components (fullFilePath (lit "/srv")
                  (request "book1" "book1_u_9_n" "/OEBPS/ch1.xhtml"))
    = components (booksFolder (lit "/srv")) ++ (lit "book1" ++ tail) :: more.
Proof.
  apply (proj1 (proj1 (@accepted_exactly_when
                  (lit "/srv")
                  (request "book1" "book1_u_9_n" "/OEBPS/ch1.xhtml")
                  eq_refl
                  ltac:(repeat split; try discriminate;
                        vm_compute; intuition discriminate)))).
  vm_compute. reflexivity.
Defined.

Lemma fold_without_parent (segments res : list jsstring) :
  Forall (fun c => c <> [DOT; DOT]) segments ->
  exists grown,
    fold_left (normalizeStep false) segments res = grown ++ res.
Proof.
  intros H. revert res. induction H as [|c l Hc _ IH]; intros res.
  - exists []. reflexivity.
  - cbn [fold_left].
    assert (S : normalizeStep false res c = res \/
                normalizeStep false res c = c :: res).
    { unfold normalizeStep. apply eqb_neq in Hc. rewrite Hc.
      destruct (eqb c [] || eqb c [DOT]); auto. }
    destruct S as [-> | ->].
    + apply IH.
    + destruct (IH (c :: res)) as [grown ->].
      exists (grown ++ [c]). rewrite <- app_assoc. reflexivity.
Qed.

(** X9.  A requested path without any [".."] segment is never refused,
    for an absolute [__dirname] and a book identity that does not end with
    a separator: its normalized form lies within the tenant root, and it is
    handed to the file layer. *)
Theorem path_without_parent_accepted (dirname : jsstring) (req : Request) :
  isAbsolute dirname = true ->
  trailingSeparator (params_bookId req) = false ->
  Forall (fun c => c <> [DOT; DOT]) (split SLASH (req_path req)) ->
  within (safeBase dirname req) (fullFilePath dirname req) = true /\
  pathResolution dirname req = ReadFile (fullFilePath dirname req).
Proof.
  intros Habs Hb Hno.
  assert (W : within (safeBase dirname req) (fullFilePath dirname req) = true).
  { rewrite (@safeBase_absolutePath dirname req Habs Hb).
    rewrite fullFilePath_joined.
    pose proof (@joinedBase_absolute dirname req Habs) as J.
    unfold within.
    rewrite components_absolutePath by apply normalizeSegments_proper.
    destruct (req_path req) as [|c rel] eqn:R.
    - rewrite normalize_absolute by exact J.
      rewrite components_absolutePath by apply normalizeSegments_proper.
      apply componentPrefix_spec. exists []. rewrite app_nil_r. reflexivity.
    - rewrite normalize_absolute by (apply isAbsolute_app; exact J).
      rewrite components_absolutePath by apply normalizeSegments_proper.
      apply componentPrefix_spec. unfold normalizeSegments.
      rewrite split_app, fold_left_app.
      destruct (@fold_without_parent (split SLASH (c :: rel))
                  (fold_left (normalizeStep false)
                             (split SLASH (joinedBase dirname req)) []) Hno)
        as [grown ->].
      exists (rev grown). rewrite rev_app_distr. reflexivity. }
  split; [exact W|].
  unfold pathResolution.
  rewrite (@within_startsWith dirname req Habs Hb W). reflexivity.
Qed.

Lemma path_without_parent_accepted_witness :
  within (safeBase (lit "/srv") (request "book1" "book1_u_9_n" "/a//./b.css"))
         (fullFilePath (lit "/srv") (request "book1" "book1_u_9_n" "/a//./b.css"))
  = true /\
  pathResolution (lit "/srv") (request "book1" "book1_u_9_n" "/a//./b.css")
  = ReadFile (fullFilePath (lit "/srv")
                (request "book1" "book1_u_9_n" "/a//./b.css")).
Proof.
  apply (@path_without_parent_accepted
           (lit "/srv")
           (request "book1" "book1_u_9_n" "/a//./b.css")).
  - reflexivity.
  - reflexivity.
  - vm_compute. repeat constructor; discriminate.
Defined.

(** Entering the folder of the books and leaving it again changes
    nothing. *)
Lemma fold_enter_leave (allow : bool) (x : jsstring) :
  fold_left (normalizeStep allow)
            (split SLASH ((x ++ SLASH :: EPUBS) ++ SLASH :: [DOT; DOT])) []
  = fold_left (normalizeStep allow) (split SLASH x) [].
Proof.
  rewrite !split_app, !fold_left_app.
  change (split SLASH EPUBS) with [EPUBS].
  change (split SLASH [DOT; DOT]) with [[DOT; DOT]].
  cbn [fold_left].
  rewrite (normalizeStep_proper allow _ properSegment_EPUBS).
  reflexivity.
Qed.

(** X10.  The tenant root follows the book identity of the URL, whatever
    it is.  When the identity is [".."] and the token passes (it then
    names [".."] too), the root is [__dirname] itself: every path without
    [".."] segment is accepted and read below [__dirname], outside the
    folder of the books. *)
Theorem parent_identity_opens_dirname
        (dirname : jsstring) (req : Request) (now : Z) :
  isAbsolute dirname = true ->
  params_bookId req = [DOT; DOT] ->
  tokenValidation req now = Continue ->
  req_path req <> [] ->
  Forall (fun c => c <> [DOT; DOT]) (split SLASH (req_path req)) ->
  handler dirname req now = ReadFile (Path.join [dirname; req_path req]).
Proof.
  intros Habs Hbook V Hrel Hno.
  rewrite (@handler_continue dirname req now V).
  pose proof (@joinedBase_named dirname req Habs) as J.
  rewrite Hbook in J. specialize (J ltac:(discriminate)).
  assert (Hd : dirname <> []) by (destruct dirname; discriminate).
  assert (B : safeBase dirname req
              = absolutePath (normalizeSegments false dirname) false).
  { rewrite safeBase_joined, J.
    rewrite normalize_absolute
      by (apply isAbsolute_app, isAbsolute_app; exact Habs).
    unfold normalizeSegments at 1. rewrite fold_enter_leave.
    replace (trailingSeparator _) with false; [reflexivity|].
    symmetry. rewrite trailingSeparator_app by discriminate. reflexivity. }
  assert (F : fullFilePath dirname req = Path.join [dirname; req_path req]).
  { rewrite fullFilePath_joined.
    unfold join. destruct dirname as [|c d]; [congruence|].
    destruct (req_path req) as [|e r]; [congruence|].
    cbn [filter eqb negb]. cbv iota. rewrite joinWith_cons by discriminate.
    cbn [joinWith]. rewrite J. apply normalize_congr.
    - discriminate.
    - discriminate.
    - reflexivity.
    - rewrite !trailingSeparator_app by discriminate. reflexivity.
    - intros allow. unfold normalizeSegments. f_equal.
      rewrite (split_app SLASH (_ ++ SLASH :: [DOT; DOT]) (e :: r)).
      rewrite (split_app SLASH (c :: d) (e :: r)).
      rewrite !fold_left_app, fold_enter_leave. reflexivity. }
  unfold pathResolution. rewrite B, F.
  replace (startsWith _ _) with true; [reflexivity|]. symmetry.
  unfold join. destruct dirname as [|c d]; [congruence|].
  destruct (req_path req) as [|e r]; [congruence|].
  cbn [filter eqb negb]. cbv iota. rewrite joinWith_cons by discriminate.
  cbn [joinWith].
  rewrite normalize_absolute by exact Habs.
  unfold normalizeSegments at 1. rewrite split_app, fold_left_app.
  destruct (@fold_without_parent (split SLASH (e :: r))
              (fold_left (normalizeStep false) (split SLASH (c :: d)) []) Hno)
    as [grown ->].
  rewrite rev_app_distr. apply absolutePath_startsWith.
Qed.

Lemma parent_identity_opens_dirname_witness :
  handler (lit "/srv/app")
          (mkRequest [DOT; DOT] (Some (lit ".._u_9999999999999_n")) None
                     (lit "/server.js"))
          1700000000000
  = ReadFile (Path.join [lit "/srv/app"; lit "/server.js"]).
Proof.
  apply (@parent_identity_opens_dirname (lit "/srv/app")
           (mkRequest [DOT; DOT] (Some (lit ".._u_9999999999999_n")) None
                      (lit "/server.js"))
           1700000000000%Z).
  - reflexivity.
  - reflexivity.
  - reflexivity.
  - discriminate.
  - vm_compute. repeat constructor; discriminate.
Defined.

(** X11.  The handler reaches [fs.readFile] only behind a passing token,
    and what it hands over is the normalized join of line 82, which starts
    with the text of [safeBase]; with an absolute [__dirname] it is an
    absolute path whose components are plain names, free of ["."],
    [".."] and empty segments. *)
Theorem file_read_only_when (dirname : jsstring) (req : Request) (now : Z)
        (p : jsstring) :
  handler dirname req now = ReadFile p ->
  tokenValidation req now = Continue /\
  p = fullFilePath dirname req /\
  startsWith p (safeBase dirname req) = true /\
  (isAbsolute dirname = true ->
   isAbsolute p = true /\ Forall properSegment (components p)).
Proof.
  unfold handler. intros H.
  destruct (tokenValidation req now) as [r|] eqn:V.
  - exfalso. subst r. revert V. unfold tokenValidation.
    repeat match goal with
      | |- context [match ?o with Some _ => _ | None => _ end] => destruct o
      | |- context [if ?b then _ else _] => destruct b
      end; discriminate.
  - unfold pathResolution in H.
    destruct (startsWith (fullFilePath dirname req) (safeBase dirname req))
      eqn:W; cbn [negb] in H; [|discriminate].
    inversion H; subst p. repeat split; try assumption.
    + destruct (@fullFilePath_absolutePath dirname req H0) as (l & t & _ & ->).
      reflexivity.
    + destruct (@fullFilePath_absolutePath dirname req H0) as (l & t & Hl & ->).
      rewrite components_absolutePath; assumption.
Qed.

Lemma file_read_only_when_witness :
  tokenValidation (request "book1" "book1_u_9_n" "/a/../toc.ncx") 5 = Continue /\
  lit "/srv/epubs_descomprimidos/book1/toc.ncx"
  = fullFilePath (lit "/srv") (request "book1" "book1_u_9_n" "/a/../toc.ncx") /\
  startsWith (lit "/srv/epubs_descomprimidos/book1/toc.ncx")
             (safeBase (lit "/srv") (request "book1" "book1_u_9_n" "/a/../toc.ncx"))
  = true /\
  (isAbsolute (lit "/srv") = true ->
   isAbsolute (lit "/srv/epubs_descomprimidos/book1/toc.ncx") = true /\
   Forall properSegment
          (components (lit "/srv/epubs_descomprimidos/book1/toc.ncx"))).
Proof.
  apply (@file_read_only_when (lit "/srv")
           (request "book1" "book1_u_9_n" "/a/../toc.ncx") 5%Z
           (lit "/srv/epubs_descomprimidos/book1/toc.ncx")).
  vm_compute. reflexivity.
Defined.

(** ** The reply and the content type *)

Import PathExt.




Lemma untilDot_spec (r after before x : jsstring) :
  untilDot r after = Some (before, x) ->
  exists mid, x = mid ++ after /\ rev r = rev before ++ DOT :: mid
              /\ ~ In DOT mid.
Proof.
  revert after. induction r as [|c r IH]; intros after; simpl; [discriminate|].
  destruct (N.eqb_spec c DOT) as [->|Hc].
  - intros E. inversion E; subst. exists []. repeat split; tauto.
  - intros E. destruct (IH _ E) as (mid & -> & Hr & Hm).
    exists (mid ++ [c]). repeat split.
    + rewrite <- app_assoc. reflexivity.
    + rewrite Hr, <- app_assoc. reflexivity.
    + intros H. apply in_app_or in H as [H|[H|[]]]; [tauto | congruence].
Qed.

Lemma untilDot_none (r after : jsstring) :
  ~ In DOT r -> untilDot r after = None.
Proof.
  revert after. induction r as [|c r IH]; intros after H; [reflexivity|].
  simpl. destruct (N.eqb_spec c DOT) as [->|_]; [simpl in H; tauto|].
  apply IH. simpl in H. tauto.
Qed.

(** The extension of a name is empty or the text from its last ['.']. *)
Lemma extOfName_spec (name : jsstring) :
  extOfName name = [] \/
  exists before after,
    name = before ++ DOT :: after /\ before <> [] /\ ~ In DOT after /\
    extOfName name = DOT :: after.
Proof.
  unfold extOfName.
  destruct (untilDot (rev name) []) as [[before x]|] eqn:E; [|left; reflexivity].
  destruct (untilDot_spec _ _ E) as (mid & -> & Hr & Hm).
  rewrite rev_involutive, app_nil_r in *.
  destruct (eqb before []) eqn:B; [left; reflexivity|].
  destruct (eqb before [DOT] && eqb mid []); [left; reflexivity|].
  right. exists (rev before), mid. repeat split; try assumption.
  apply eqb_neq in B. intros H. apply B.
  apply (f_equal (@rev _)) in H. rewrite rev_involutive in H. exact H.
Qed.

Lemma extOfName_no_dot (name : jsstring) :
  ~ In DOT name -> extOfName name = [].
Proof.
  intros H. unfold extOfName. rewrite untilDot_none; [reflexivity|].
  intros I. apply H. apply in_rev. exact I.
Qed.

Lemma extOfName_dotfile (rest : jsstring) :
  ~ In DOT rest -> extOfName (DOT :: rest) = [].
Proof.
  intros H. unfold extOfName. simpl rev.
  assert (G : forall r after, ~ In DOT r ->
              untilDot (r ++ [DOT]) after = Some ([], rev r ++ after)).
  { induction r as [|c r IH]; intros after Hr.
    - reflexivity.
    - simpl. destruct (N.eqb_spec c DOT) as [->|_]; [simpl in Hr; tauto|].
      rewrite IH by (simpl in Hr; tauto).
      rewrite <- app_assoc. reflexivity. }
  rewrite G; [reflexivity|].
  intros I. apply H. apply in_rev. exact I.
Qed.

(** X13.  A file whose name has no ['.'], or whose only ['.'] is its first
    character, is sent as [application/octet-stream]: a file called
    [".css"] is not a style sheet for the handler. *)
Theorem no_extension_octet_stream (p : jsstring) :
  ~ In DOT (lastComponent p) \/
  (exists rest, lastComponent p = DOT :: rest /\ ~ In DOT rest) ->
  extname p = [] /\
  contentTypeOf p = Some "application/octet-stream"%string.
Proof.
  intros H.
  assert (E : extname p = []).
  { unfold extname. destruct H as [H | (rest & -> & H)].
    - apply extOfName_no_dot. exact H.
    - apply extOfName_dotfile. exact H. }
  split; [exact E|]. unfold contentTypeOf. rewrite E. reflexivity.
Qed.

Lemma no_extension_octet_stream_witness :
  extname (lit "/srv/epubs_descomprimidos/book.1/OEBPS/.css") = [] /\
  contentTypeOf (lit "/srv/epubs_descomprimidos/book.1/OEBPS/.css")
  = Some "application/octet-stream"%string.
Proof.
  apply (@no_extension_octet_stream
           (lit "/srv/epubs_descomprimidos/book.1/OEBPS/.css")).
  right. exists (lit "css"). split; [reflexivity|].
  vm_compute. intuition discriminate.
Defined.

(** *** Renaming characters *)

Section Renaming.

Variable f : char -> char.
Hypothesis f_separator : forall c, (f c =? SLASH)%N = (c =? SLASH)%N.
Hypothesis f_dot : forall c, (f c =? DOT)%N = (c =? DOT)%N.

Lemma split_map (p : jsstring) :
  split SLASH (map f p) = map (map f) (split SLASH p).
Proof using f_separator.
  induction p as [|c p IH]; [reflexivity|].
  simpl. rewrite f_separator, IH.
  destruct (c =? SLASH)%N; [reflexivity|].
  destruct (split SLASH p); reflexivity.
Qed.

Lemma filter_nonempty_map (l : list jsstring) :
  filter (fun c => negb (eqb c [])) (map (map f) l)
  = map (map f) (filter (fun c => negb (eqb c [])) l).
Proof.
  induction l as [|s l IH]; [reflexivity|].
  simpl. rewrite IH. destruct s; reflexivity.
Qed.

Lemma last_map_nil (l : list jsstring) :
  last (map (map f) l) [] = map f (last l []).
Proof.
  induction l as [|s l IH]; [reflexivity|].
  destruct l; [reflexivity | exact IH].
Qed.

Lemma lastComponent_map (p : jsstring) :
  lastComponent (map f p) = map f (lastComponent p).
Proof using f_separator.
  unfold lastComponent.
  rewrite split_map, filter_nonempty_map, last_map_nil. reflexivity.
Qed.

Lemma untilDot_map (r after : jsstring) :
  untilDot (map f r) (map f after)
  = match untilDot r after with
    | Some (before, x) => Some (map f before, map f x)
    | None => None
    end.
Proof using f_dot.
  revert after. induction r as [|c r IH]; intros after; [reflexivity|].
  simpl. rewrite f_dot. destruct (c =? DOT)%N; [reflexivity|].
  apply (IH (c :: after)).
Qed.

Lemma extOfName_map (name : jsstring) :
  extOfName (map f name) = map f (extOfName name).
Proof using f_dot.
  unfold extOfName.
  rewrite <- map_rev. change (@nil char) with (map f []) at 1.
  rewrite untilDot_map.
  destruct (untilDot (rev name) []) as [[before x]|]; [|reflexivity].
  assert (D : f DOT = DOT) by (apply N.eqb_eq; rewrite f_dot; reflexivity).
  destruct before as [|b before]; [reflexivity|].
  cbn [map eqb]. rewrite f_dot.
  destruct before as [|b' before]; destruct x as [|x0 x];
    cbn [map eqb andb]; rewrite ?andb_false_r, ?andb_true_r;
    try destruct (b =? DOT)%N; cbn [map]; rewrite ?D; reflexivity.
Qed.

Lemma extname_map (p : jsstring) :
  extname (map f p) = map f (extname p).
Proof using f_separator f_dot.
  unfold extname. rewrite lastComponent_map, extOfName_map. reflexivity.
Qed.

End Renaming.

Lemma lowerASCII_keeps (x c : char) :
  (x < 65 \/ 122 < x)%N -> (lowerASCII c =? x)%N = (c =? x)%N.
Proof.
  intros Hx. unfold lowerASCII.
  destruct (N.leb_spec 65 c); destruct (N.leb_spec c 90); cbn [andb];
    try reflexivity.
  destruct (N.eqb_spec (c + 32) x); destruct (N.eqb_spec c x);
    try reflexivity; lia.
Qed.

Lemma split_incl (sep : char) (s piece : jsstring) (c : char) :
  In piece (split sep s) -> In c piece -> In c s.
Proof.
  revert piece. induction s as [|d s IH]; intros piece; simpl.
  - intros [<-|[]] [].
  - destruct (d =? sep)%N.
    + intros [<-|H] Hc; [destruct Hc | right; eapply IH; eassumption].
    + destruct (split sep s) as [|q qs] eqn:E;
        [now apply split_not_nil in E|].
      intros [<-|H] Hc.
      * destruct Hc as [->|Hc]; [left; reflexivity|].
        right. apply (IH q); [left; reflexivity | exact Hc].
      * right. apply (IH piece); [right; exact H | exact Hc].
Qed.

Lemma last_in_or_default (l : list jsstring) :
  last l [] = [] \/ In (last l []) l.
Proof.
  induction l as [|s l IH]; [left; reflexivity|].
  destruct l as [|t l]; [right; left; reflexivity|].
  destruct IH as [IH|IH]; [left; exact IH | right; right; exact IH].
Qed.

(** The extension is cut out of the path. *)
Lemma extname_incl (p : jsstring) (c : char) :
  In c (extname p) -> In c p.
Proof.
  unfold extname. intros H.
  assert (N : In c (lastComponent p)).
  { destruct (extOfName_spec (lastComponent p)) as [E | (b & a & E & _ & _ & X)].
    - rewrite E in H. destruct H.
    - rewrite X in H. rewrite E. apply in_or_app. right. exact H. }
  unfold lastComponent in N.
  destruct (last_in_or_default
              (filter (fun c => negb (eqb c [])) (split SLASH p))) as [E|I].
  - rewrite E in N. destruct N.
  - apply filter_In in I as [I _]. eapply split_incl; eassumption.
Qed.

Lemma toLowerCase_extname (p : jsstring) :
  forallb isASCII p = true ->
  toLowerCase (extname p) = Some (extname (map lowerASCII p)).
Proof.
  intros H. unfold toLowerCase.
  replace (forallb isASCII (extname p)) with true.
  - rewrite extname_map; [reflexivity | |];
      intros c; apply lowerASCII_keeps; left; reflexivity.
  - symmetry. apply forallb_forall. intros c Hc.
    rewrite forallb_forall in H. apply H. apply extname_incl. exact Hc.
Qed.

(** X14.  The content type does not depend on the case of the letters:
    two ASCII paths that differ in letter case only, anywhere in the
    path, are sent under the same type. *)
Theorem content_type_ignores_case (p q : jsstring) :
  forallb isASCII p = true ->
  forallb isASCII q = true ->
  map lowerASCII p = map lowerASCII q ->
  contentTypeOf p = contentTypeOf q /\
  contentTypeOf p
  = Some (contentTypeFor (extname (map lowerASCII p))).
Proof.
  intros Hp Hq E. unfold contentTypeOf.
  rewrite (toLowerCase_extname p Hp), (toLowerCase_extname q Hq), E.
  split; reflexivity.
Qed.

Lemma content_type_ignores_case_witness :
  contentTypeOf (lit "/srv/Books/Cover.JPEG")
  = contentTypeOf (lit "/SRV/books/cover.jpeg") /\
  contentTypeOf (lit "/srv/Books/Cover.JPEG")
  = Some (contentTypeFor
            (extname (map lowerASCII (lit "/srv/Books/Cover.JPEG")))).
Proof.
  apply (@content_type_ignores_case (lit "/srv/Books/Cover.JPEG")
           (lit "/SRV/books/cover.jpeg")).
  - reflexivity.
  - reflexivity.
  - reflexivity.
Defined.

Lemma lastComponent_absolutePath (l : list jsstring) (name : jsstring)
      (t : bool) :
  Forall properSegment l -> properSegment name ->
  lastComponent (absolutePath (l ++ [name]) t) = name.
Proof.
  intros Hl Hn.
  change (lastComponent (absolutePath (l ++ [name]) t))
    with (last (components (absolutePath (l ++ [name]) t)) []).
  rewrite components_absolutePath.
  - apply last_last.
  - apply Forall_app. split; [exact Hl | constructor; [exact Hn | constructor]].
Qed.

Lemma lastComponent_name (name : jsstring) :
  properSegment name -> lastComponent name = name.
Proof.
  intros (H0 & _ & _ & Hs). unfold lastComponent.
  rewrite (@split_no_sep SLASH name Hs). cbn [filter].
  apply eqb_neq in H0. rewrite H0. reflexivity.
Qed.

(** X15.  For an absolute [__dirname], when the requested path ends with
    a name, the extension and the content type are those of that name
    alone: dots in [__dirname], in the book identity or in the folders on
    the way play no part. *)
Theorem content_type_from_last_name
        (dirname : jsstring) (req : Request) (a name : jsstring) :
  isAbsolute dirname = true ->
  req_path req = a ++ SLASH :: name ->
  properSegment name ->
  lastComponent (fullFilePath dirname req) = name /\
  extname (fullFilePath dirname req) = extname name /\
  contentTypeOf (fullFilePath dirname req) = contentTypeOf name.
Proof.
  intros Habs Hp Hn.
  assert (L : lastComponent (fullFilePath dirname req) = name).
  { rewrite fullFilePath_joined, Hp.
    destruct (a ++ SLASH :: name) as [|c r] eqn:E; [destruct a; discriminate|].
    rewrite <- E.
    replace (joinedBase dirname req ++ SLASH :: a ++ SLASH :: name)
      with ((joinedBase dirname req ++ SLASH :: a) ++ SLASH :: name)
      by (rewrite <- app_assoc; reflexivity).
    rewrite normalize_absolute
      by (apply isAbsolute_app, isAbsolute_app, joinedBase_absolute; exact Habs).
    rewrite normalizeSegments_snoc by exact Hn.
    apply lastComponent_absolutePath;
      [apply normalizeSegments_proper | exact Hn]. }
  assert (X : extname (fullFilePath dirname req) = extname name).
  { unfold extname. rewrite L, (lastComponent_name Hn). reflexivity. }
  split; [exact L|]. split; [exact X|].
  unfold contentTypeOf. rewrite X. reflexivity.
Qed.

Lemma content_type_from_last_name_witness :
  lastComponent (fullFilePath (lit "/srv/app.v2")
                   (request "book.1" "book.1_u_9_n" "/OEBPS.d/../ch1.xhtml"))
  = lit "ch1.xhtml" /\
  extname (fullFilePath (lit "/srv/app.v2")
             (request "book.1" "book.1_u_9_n" "/OEBPS.d/../ch1.xhtml"))
  = extname (lit "ch1.xhtml") /\
  contentTypeOf (fullFilePath (lit "/srv/app.v2")
                   (request "book.1" "book.1_u_9_n" "/OEBPS.d/../ch1.xhtml"))
  = contentTypeOf (lit "ch1.xhtml").
Proof.
  apply (@content_type_from_last_name (lit "/srv/app.v2")
           (request "book.1" "book.1_u_9_n" "/OEBPS.d/../ch1.xhtml")
           (lit "/OEBPS.d/..") (lit "ch1.xhtml")).
  - reflexivity.
  - reflexivity.
  - repeat split; try discriminate. vm_compute. intuition discriminate.
Defined.

(** ** Siblings of the book folder *)

Lemma fold_joinedBase (dirname : jsstring) (req : Request) :
  isAbsolute dirname = true ->
  properSegment (params_bookId req) ->
  fold_left (normalizeStep false) (split SLASH (joinedBase dirname req)) []
  = params_bookId req :: EPUBS :: rev (normalizeSegments false dirname).
Proof.
  intros Habs Hb.
  rewrite (@joinedBase_named dirname req Habs (proj1 Hb)).
  destruct Hb as (H0 & H1 & H2 & Hs).
  rewrite !split_app, !fold_left_app.
  rewrite (@split_no_sep SLASH _ Hs).
  change (split SLASH EPUBS) with [EPUBS]. cbn [fold_left].
  rewrite (normalizeStep_proper false _ properSegment_EPUBS).
  rewrite normalizeStep_proper by (repeat split; assumption).
  unfold normalizeSegments. rewrite rev_involutive. reflexivity.
Qed.

(** X16.  The text test of line 87 cannot tell a book from its
    neighbours.  For an absolute [__dirname] and a book identity that is a
    plain name, the path ["/../"], then a folder whose name begins with
    the identity, then a file name, is accepted: the file is read in that
    other folder of [epubs_descomprimidos]. *)
Theorem sibling_folders_open
        (dirname : jsstring) (req : Request) (s file : jsstring) :
  isAbsolute dirname = true ->
  properSegment (params_bookId req) ->
  properSegment (params_bookId req ++ s) ->
  properSegment file ->
  req_path req
  = SLASH :: DOT :: DOT :: SLASH :: (params_bookId req ++ s) ++ SLASH :: file ->
  pathResolution dirname req = ReadFile (fullFilePath dirname req) /\
  components (fullFilePath dirname req)
  = components (booksFolder dirname) ++ [params_bookId req ++ s; file].
Proof.
  intros Habs Hb Hbs Hf Hp.
  assert (C : fullFilePath dirname req
              = absolutePath
                  ((normalizeSegments false dirname ++ [EPUBS])
                     ++ [params_bookId req ++ s; file]) false).
  { rewrite fullFilePath_joined, Hp.
    rewrite normalize_absolute
      by (apply isAbsolute_app, joinedBase_absolute; exact Habs).
    f_equal.
    - unfold normalizeSegments at 1.
      rewrite split_app, fold_left_app, (@fold_joinedBase dirname req Habs Hb).
      change (SLASH :: DOT :: DOT :: SLASH :: ?x)
        with ([] ++ SLASH :: [DOT; DOT] ++ SLASH :: x).
      rewrite !split_app.
      rewrite (@split_no_sep SLASH _ (proj2 (proj2 (proj2 Hbs)))).
      rewrite (@split_no_sep SLASH _ (proj2 (proj2 (proj2 Hf)))).
      change (split SLASH []) with [@nil char].
      change (split SLASH [DOT; DOT]) with [[DOT; DOT]].
      cbn [app fold_left].
      rewrite (@normalizeStep_skip false _ [] (or_introl eq_refl)).
      assert (P : normalizeStep false
                    (params_bookId req :: EPUBS
                       :: rev (normalizeSegments false dirname)) [DOT; DOT]
                  = EPUBS :: rev (normalizeSegments false dirname)).
      { unfold normalizeStep. cbn [eqb orb andb N.eqb].
        destruct Hb as (_ & _ & H2 & _). apply eqb_neq in H2.
        change (eqb [DOT; DOT] []) with false.
        change (eqb [DOT; DOT] [DOT]) with false.
        change (eqb [DOT; DOT] [DOT; DOT]) with true.
        cbn [orb]. cbv iota. rewrite H2. reflexivity. }
      rewrite P, (@normalizeStep_proper false _ _ Hbs),
              (@normalizeStep_proper false _ _ Hf).
      cbn [rev]. rewrite rev_involutive, <- !app_assoc. reflexivity.
    - replace (joinedBase dirname req ++ SLASH :: SLASH :: DOT :: DOT
                 :: SLASH :: (params_bookId req ++ s) ++ SLASH :: file)
        with ((joinedBase dirname req ++ SLASH :: SLASH :: DOT :: DOT
                 :: SLASH :: (params_bookId req ++ s)) ++ SLASH :: file)
        by (rewrite <- !app_assoc; simpl; rewrite <- !app_assoc; reflexivity).
      apply trailingSeparator_snoc. exact Hf. }
  assert (Hroot : Forall properSegment
                    (normalizeSegments false dirname ++ [EPUBS])).
  { apply Forall_app. split; [apply normalizeSegments_proper|].
    constructor; [apply properSegment_EPUBS | constructor]. }
  assert (Hall : Forall properSegment
                   ((normalizeSegments false dirname ++ [EPUBS])
                      ++ [params_bookId req ++ s; file])).
  { apply Forall_app. split; [exact Hroot|].
    constructor; [exact Hbs|]. constructor; [exact Hf | constructor]. }
  split.
  - unfold pathResolution.
    rewrite (@safeBase_proper dirname req Habs Hb), C.
    replace (startsWith _ _) with true; [reflexivity|]. symmetry.
    apply (proj2 (@startsWith_components _ _ _ false Hroot Hb Hall)).
    exists s, [file]. reflexivity.
  - rewrite C, (@components_booksFolder dirname Habs).
    apply components_absolutePath. exact Hall.
Qed.

Lemma sibling_folders_open_witness :
  pathResolution (lit "/srv") (request "book1" "book1_u_9_n" "/../book10/toc.ncx")
  = ReadFile (fullFilePath (lit "/srv")
                (request "book1" "book1_u_9_n" "/../book10/toc.ncx")) /\
  components (fullFilePath (lit "/srv")
                (request "book1" "book1_u_9_n" "/../book10/toc.ncx"))
  = components (booksFolder (lit "/srv")) ++ [lit "book1" ++ lit "0"; lit "toc.ncx"].
Proof.
  apply (@sibling_folders_open (lit "/srv")
           (request "book1" "book1_u_9_n" "/../book10/toc.ncx")
           (lit "0") (lit "toc.ncx")).
  - reflexivity.
  - repeat split; try discriminate. vm_compute. intuition discriminate.
  - repeat split; try discriminate. vm_compute. intuition discriminate.
  - repeat split; try discriminate. vm_compute. intuition discriminate.
  - reflexivity.
Defined.

(** ** [path.extname] on the examples of Node's documentation and tests *)

Example extname_documented :
  map (fun p => extname (lit p))
      ["index.html"; "index.coffee.md"; "index."; "index"; ".index";
       ".index.md"]%string
  = map lit [".html"; ".md"; "."; ""; ""; ".md"]%string.
Proof. vm_compute. reflexivity. Qed.

Example extname_closing_separators :
  map (fun p => extname (lit p)) ["file.ext/"; "file.ext//"; "file/"; "./"]%string
  = map lit [".ext"; ".ext"; ""; ""]%string.
Proof. vm_compute. reflexivity. Qed.

Example extname_dots :
  map (fun p => extname (lit p))
      [".."; "../"; "..."; "..file"; "..file.ext"; ".file."; ".file.."]%string
  = map lit [""; ""; "."; ".file"; ".ext"; "."; "."]%string.
Proof. vm_compute. reflexivity. Qed.

Example content_types :
  map (fun p => contentTypeOf (lit p))
      ["/b/OEBPS/ch1.xhtml"; "/b/style.CSS"; "/b/toc.ncx"; "/b/content.opf";
       "/b/font.woff2"; "/b/page.htm"; "/b/mimetype"]%string
  = map (@Some string)
      ["application/xhtml+xml"; "text/css"; "application/x-dtbncx+xml";
       "application/oebps-package+xml"; "font/opentype";
       "application/octet-stream"; "application/octet-stream"]%string.
Proof. vm_compute. reflexivity. Qed.

(** ** The path of the request and the path of the file *)

Lemma components_safeBase (dirname : jsstring) (req : Request) :
  isAbsolute dirname = true ->
  components (safeBase dirname req)
  = normalizeSegments false (joinedBase dirname req).
Proof.
  intros Habs. rewrite safeBase_joined.
  rewrite normalize_absolute by (apply joinedBase_absolute; exact Habs).
  apply components_absolutePath, normalizeSegments_proper.
Qed.

(** The file path as an absolute normalized path: its components come
    from running the segments of [req.path] on the components of
    [safeBase]; its closing separator is that of [req.path]. *)
Lemma fullFilePath_run (dirname : jsstring) (req : Request) :
  isAbsolute dirname = true ->
  fullFilePath dirname req
  = absolutePath
      (rev (fold_left (normalizeStep false) (split SLASH (req_path req))
                      (rev (components (safeBase dirname req)))))
      (match req_path req with
       | [] => trailingSeparator (joinedBase dirname req)
       | _ :: _ => trailingSeparator (req_path req)
       end).
Proof.
  intros Habs. rewrite (@components_safeBase dirname req Habs).
  unfold normalizeSegments at 1. rewrite rev_involutive.
  rewrite fullFilePath_joined.
  pose proof (@joinedBase_absolute dirname req Habs) as J.
  destruct (req_path req) as [|c rel].
  - rewrite normalize_absolute by exact J.
    rewrite fold_empty_segment. reflexivity.
  - rewrite normalize_absolute by (apply isAbsolute_app; exact J).
    unfold normalizeSegments. rewrite split_app, fold_left_app.
    f_equal.
    replace (joinedBase dirname req ++ SLASH :: c :: rel)
      with ((joinedBase dirname req ++ [SLASH]) ++ c :: rel)
      by (rewrite <- app_assoc; reflexivity).
    apply trailingSeparator_app. discriminate.
Qed.



Lemma startsWith_refl (p : jsstring) : startsWith p p = true.
Proof.
  rewrite <- (app_nil_r p) at 1. apply startsWith_app.
Qed.

(** C1, at the failing input.  The request
    [GET /epubs_content/123/../1234/x?userToken=123_userA_9999999999999_xyz],
    sent as it stands, with [__dirname] ["/books"].  Its sub-path
    ["../1234/x"] leaves the tenant root
    ["/books/epubs_descomprimidos/123"] for the sibling folder [1234].
    The handler receives ["/"] as [req.path], not the sub-path: it joins
    the root with ["/"], line 87 lets the result through, and instead of
    the answer 400 the handler calls [fs.readFile] on the folder of the
    book, whose failure is answered 404. *)
Theorem traversal_not_refused :
  req_path (received (mkArrival (lit "123") (lit "../1234/x")
                        (Some (lit "123_userA_9999999999999_xyz")) None))
  = lit "/" /\
  within (lit "/books/epubs_descomprimidos/123")
         (Path.join [lit "/books/epubs_descomprimidos/123"; lit "../1234/x"])
  = false /\
  handler (lit "/books")
          (received (mkArrival (lit "123") (lit "../1234/x")
                      (Some (lit "123_userA_9999999999999_xyz")) None))
          1700000000000
  = ReadFile (lit "/books/epubs_descomprimidos/123/") /\
  handler (lit "/books")
          (received (mkArrival (lit "123") (lit "../1234/x")
                      (Some (lit "123_userA_9999999999999_xyz")) None))
          1700000000000
  <> invalidFilePath /\
  respond (fun _ => None) (lit "/books")
          (received (mkArrival (lit "123") (lit "../1234/x")
                      (Some (lit "123_userA_9999999999999_xyz")) None))
          1700000000000
  = Status 404 "Archivo del libro no encontrado.".
Proof. vm_compute. repeat split. discriminate. Qed.




(** X17.  For the path ["/"], which is what the handler receives as
    [req.path], line 87 never refuses, whatever the book identity: with an
    absolute [__dirname] the file path has the very components of
    [safeBase], and the answer 400 is out of reach. *)
Theorem root_path_never_refused (dirname : jsstring) (req : Request) :
  isAbsolute dirname = true ->
  req_path req = [SLASH] ->
  pathResolution dirname req = ReadFile (fullFilePath dirname req) /\
  components (fullFilePath dirname req) = components (safeBase dirname req) /\
  forall now, handler dirname req now <> invalidFilePath.
Proof.
  intros Habs Hp.
  assert (C : components (fullFilePath dirname req)
              = components (safeBase dirname req)).
  { pose proof (@fullFilePath_run dirname req Habs) as F.
    rewrite Hp in F. cbn [split N.eqb fold_left] in F.
    change (SLASH =? SLASH)%N with true in F. cbv iota in F.
    cbn [fold_left] in F.
    rewrite !(@normalizeStep_skip false _ [] (or_introl eq_refl)) in F.
    rewrite rev_involutive in F. rewrite F.
    apply components_absolutePath.
    rewrite (@components_safeBase dirname req Habs).
    apply normalizeSegments_proper. }
  assert (P : pathResolution dirname req = ReadFile (fullFilePath dirname req)).
  { unfold pathResolution.
    replace (startsWith _ _) with true; [reflexivity|]. symmetry.
    pose proof (@fullFilePath_run dirname req Habs) as F.
    rewrite Hp in F. cbn [split fold_left] in F.
    change (SLASH =? SLASH)%N with true in F. cbv iota in F.
    cbn [fold_left] in F.
    rewrite !(@normalizeStep_skip false _ [] (or_introl eq_refl)) in F.
    rewrite rev_involutive in F.
    change (trailingSeparator [SLASH]) with true in F.
    rewrite F, (@components_safeBase dirname req Habs).
    rewrite safeBase_joined.
    rewrite normalize_absolute by (apply joinedBase_absolute; exact Habs).
    destruct (trailingSeparator (joinedBase dirname req)).
    - apply startsWith_refl.
    - rewrite <- (app_nil_r (normalizeSegments false (joinedBase dirname req)))
        at 1.
      apply absolutePath_startsWith. }
  split; [exact P|]. split; [exact C|].
  intros now. unfold handler.
  destruct (tokenValidation req now) as [r|] eqn:V.
  - intros ->. revert V. unfold tokenValidation.
    repeat match goal with
      | |- context [match ?o with Some _ => _ | None => _ end] => destruct o
      | |- context [if ?b then _ else _] => destruct b
      end; discriminate.
  - rewrite P. discriminate.
Qed.

Lemma root_path_never_refused_witness :
  pathResolution (lit "/srv")
    (received (mkArrival (lit "../..") (lit "etc/passwd")
                 (Some (lit "../.._u_9_n")) None))
  = ReadFile (fullFilePath (lit "/srv")
      (received (mkArrival (lit "../..") (lit "etc/passwd")
                   (Some (lit "../.._u_9_n")) None))) /\
  components (fullFilePath (lit "/srv")
      (received (mkArrival (lit "../..") (lit "etc/passwd")
                   (Some (lit "../.._u_9_n")) None)))
  = components (safeBase (lit "/srv")
      (received (mkArrival (lit "../..") (lit "etc/passwd")
                   (Some (lit "../.._u_9_n")) None))) /\
  forall now,
    handler (lit "/srv")
      (received (mkArrival (lit "../..") (lit "etc/passwd")
                   (Some (lit "../.._u_9_n")) None)) now
    <> invalidFilePath.
Proof.
  apply (@root_path_never_refused (lit "/srv")
           (received (mkArrival (lit "../..") (lit "etc/passwd")
                        (Some (lit "../.._u_9_n")) None))).
  - reflexivity.
  - reflexivity.
Defined.
